(** * Exoplanet researcher client: the result-acquisition core of [js/api.js]

    A shallow embedding of the browser module [js/api.js] (as shipped next to
    [js/researchers.js]) and of the result derivation in [processData]:

    - JavaScript numbers are IEEE-754 binary64 values, modelled by Rocq's
      primitive [float]; [Math.min], [Math.max], [Math.round] and [parseFloat]
      follow ECMA-262.
    - JavaScript values are an inductive type [value]; objects are ordered
      property lists and a string is the sequence of its UTF-8 bytes.
    - Asynchronous code is sequential code in a small state-and-exception
      monad [M] over a [world] (clock, call counters, trace of observable
      effects) and an [env] that scripts what the page does not decide: what
      the network answers and when, how late timers are, what the callbacks
      of the caller throw, and the platform functions left abstract.
    - The JSONP bridge is a transition system over the closure variables of
      [fetchServerResponseJSONP]. *)

From Stdlib Require Import ZArith List String Ascii Bool Lia.
From Stdlib Require Import Floats DecimalString.
Import ListNotations.

#[local] Set Warnings "-inexact-float,-register-all,-notation-for-abbreviation".
#[local] Open Scope string_scope.
#[local] Open Scope Z_scope.

(** ** JavaScript numbers *)

Module Num.

Definition number := float.

(** [typeof NaN === "number"]: every [float] is a Number. *)
Definition isFinite (x : number) : bool := PrimFloat.is_finite x.

(** ToBoolean on a Number: [+0], [-0] and [NaN] are falsy. *)
Definition truthy (x : number) : bool :=
  negb (PrimFloat.is_nan x || PrimFloat.is_zero x).

Definition is_pos_zero (x : number) : bool :=
  match PrimFloat.classify x with PZero => true | _ => false end.

Definition is_neg_zero (x : number) : bool :=
  match PrimFloat.classify x with NZero => true | _ => false end.

(** SameValueZero of ECMA-262: numeric equality where [NaN] equals itself and
    the two zeros are identified. *)
Definition SameValueZero (x y : number) : bool :=
  PrimFloat.eqb x y || (PrimFloat.is_nan x && PrimFloat.is_nan y).

(** [Math.min(...values)] (ECMA-262 21.3.2.25): start from [+Infinity]; a
    [NaN] argument makes the result [NaN]; [-0] is below [+0]. *)
Fixpoint min_from (lowest : number) (values : list number) : number :=
  match values with
  | [] => lowest
  | n :: rest =>
      if PrimFloat.is_nan n then PrimFloat.nan
      else if is_neg_zero n && is_pos_zero lowest then min_from n rest
      else if PrimFloat.ltb n lowest then min_from n rest
      else min_from lowest rest
  end.

Definition Math_min (values : list number) : number :=
  min_from PrimFloat.infinity values.

(** [Math.max(...values)] (ECMA-262 21.3.2.24). *)
Fixpoint max_from (highest : number) (values : list number) : number :=
  match values with
  | [] => highest
  | n :: rest =>
      if PrimFloat.is_nan n then PrimFloat.nan
      else if is_pos_zero n && is_neg_zero highest then max_from n rest
      else if PrimFloat.ltb highest n then max_from n rest
      else max_from highest rest
  end.

Definition Math_max (values : list number) : number :=
  max_from PrimFloat.neg_infinity values.

Definition of_Z (z : Z) : number :=
  SF2Prim (binary_normalize prec emax z 0 false).

(** The integer a timer delay is cut to: truncation towards zero, [0] for
    [NaN] and the infinities. *)
Definition to_Z (x : number) : Z :=
  match Prim2SF x with
  | S754_finite s m e =>
      let n := if 0 <=? e then Z.pos m * 2 ^ e else Z.pos m / 2 ^ (- e) in
      if s then - n else n
  | _ => 0
  end.

(** The least integer that is not below a finite [x]; an integer is below [x]
    exactly when it is below [ceiling x]. *)
Definition ceiling (x : number) : Z :=
  match Prim2SF x with
  | S754_finite s m e =>
      if 0 <=? e then (if s then Z.neg m else Z.pos m) * 2 ^ e
      else if s then - (Z.pos m / 2 ^ (- e))
      else (Z.pos m + 2 ^ (- e) - 1) / 2 ^ (- e)
  | _ => 0
  end.

(** [Some n] when [x] is the whole number [n]. *)
Definition whole (x : number) : option Z :=
  match Prim2SF x with
  | S754_zero _ => Some 0
  | S754_finite s m e =>
      if 0 <=? e then Some ((if s then Z.neg m else Z.pos m) * 2 ^ e)
      else if Z.pos m mod 2 ^ (- e) =? 0
           then Some ((if s then Z.neg m else Z.pos m) / 2 ^ (- e))
           else None
  | _ => None
  end.

(** [Math.round(x)]: the integral Number closest to [x], ties towards
    [+Infinity]; [NaN], the zeros and the infinities are returned unchanged and
    a negative [x >= -0.5] gives [-0]. *)
Definition Math_round (x : number) : number :=
  match Prim2SF x with
  | S754_finite s m e =>
      if 0 <=? e then x
      else
        let n := if s then Z.neg m else Z.pos m in
        let d := 2 ^ (- e) in
        let r := (2 * n + d) / (2 * d) in
        if r =? 0 then (if s then PrimFloat.neg_zero else PrimFloat.zero)
        else of_Z r
  | _ => x
  end.

(** *** [parseFloat] on strings (ECMA-262 19.2.4)

    The longest prefix of the trimmed string that is a [StrDecimalLiteral] is
    converted to the nearest binary64 value (ties to even); no such prefix
    gives [NaN]. A string is the sequence of the UTF-8 bytes of the JavaScript
    string; the white space skipped is [StrWhiteSpaceChar]: TAB, LF, VT, FF,
    CR, SP and, beyond ASCII, U+00A0, U+1680, U+2000 to U+200A, U+2028,
    U+2029, U+202F, U+205F, U+3000 and U+FEFF. *)

Definition is_space (c : ascii) : bool :=
  let n := nat_of_ascii c in
  Nat.eqb n 32 || (Nat.leb 9 n && Nat.leb n 13).

(** U+00A0 is [C2 A0]. *)
Definition is_space2 (c d : ascii) : bool :=
  Ascii.eqb c "194" && Ascii.eqb d "160".

(** The white space of three bytes: U+1680 is [E1 9A 80], U+2000 to U+200A
    are [E2 80 80] to [E2 80 8A], U+2028, U+2029 and U+202F are [E2 80 A8],
    [E2 80 A9] and [E2 80 AF], U+205F is [E2 81 9F], U+3000 is [E3 80 80] and
    U+FEFF is [EF BB BF]. *)
Definition is_space3 (c d e : ascii) : bool :=
  let n := nat_of_ascii e in
  (Ascii.eqb c "225" && Ascii.eqb d "154" && Ascii.eqb e "128")
  || (Ascii.eqb c "226" && Ascii.eqb d "128"
      && ((Nat.leb 128 n && Nat.leb n 138)
          || Nat.eqb n 168 || Nat.eqb n 169 || Nat.eqb n 175))
  || (Ascii.eqb c "226" && Ascii.eqb d "129" && Ascii.eqb e "159")
  || (Ascii.eqb c "227" && Ascii.eqb d "128" && Ascii.eqb e "128")
  || (Ascii.eqb c "239" && Ascii.eqb d "187" && Ascii.eqb e "191").

Fixpoint trim_start (s : string) : string :=
  match s with
  | String c rest =>
      if is_space c then trim_start rest
      else
        match rest with
        | String d rest2 =>
            if is_space2 c d then trim_start rest2
            else
              match rest2 with
              | String e rest3 =>
                  if is_space3 c d e then trim_start rest3 else s
              | EmptyString => s
              end
        | EmptyString => s
        end
  | EmptyString => s
  end.

Definition digit_of (c : ascii) : option Z :=
  let n := nat_of_ascii c in
  if Nat.leb 48 n && Nat.leb n 57 then Some (Z.of_nat n - 48) else None.

(** [take_digits s acc cnt] reads a run of decimal digits: the number read
    (continuing [acc]), how many digits were read (continuing [cnt]) and what
    is left. *)
Fixpoint take_digits (s : string) (acc : Z) (cnt : Z) : Z * Z * string :=
  match s with
  | String c rest =>
      match digit_of c with
      | Some d => take_digits rest (10 * acc + d) (cnt + 1)
      | None => (acc, cnt, s)
      end
  | EmptyString => (acc, cnt, s)
  end.

(** The optional [ExponentPart]: [e] or [E], an optional sign and at least one
    digit; anything else is not part of the literal. *)
Definition exponent_part (s : string) : Z :=
  match s with
  | String c rest =>
      if Ascii.eqb c "e" || Ascii.eqb c "E" then
        let '(neg, body) :=
          match rest with
          | String "-" r => (true, r)
          | String "+" r => (false, r)
          | _ => (false, rest)
          end in
        let '(v, cnt, _) := take_digits body 0 0 in
        if cnt =? 0 then 0 else if neg then - v else v
      else 0
  | EmptyString => 0
  end.

(** The binary64 value nearest to [(-1)^neg * m * 10^e10]. *)
Definition decimal_value (neg : bool) (m : Z) (e10 : Z) : number :=
  if m <=? 0 then (if neg then PrimFloat.neg_zero else PrimFloat.zero)
  else if 0 <=? e10 then
    let v := m * 10 ^ e10 in
    SF2Prim (binary_normalize prec emax (if neg then - v else v) 0 neg)
  else
    let '(q, e2, loc) := SFdiv_core_binary prec emax m 0 (10 ^ (- e10)) 0 in
    SF2Prim (binary_round_aux prec emax neg q e2 loc).

Definition starts_with (p s : string) : bool :=
  String.eqb (substring 0 (String.length p) s) p.

Definition parseFloat (input : string) : number :=
  let s := trim_start input in
  let '(neg, body) :=
    match s with
    | String "-" r => (true, r)
    | String "+" r => (false, r)
    | _ => (false, s)
    end in
  if starts_with "Infinity" body then
    (if neg then PrimFloat.neg_infinity else PrimFloat.infinity)
  else
    let '(ip, icnt, after_int) := take_digits body 0 0 in
    let '(m, fcnt, after_frac) :=
      match after_int with
      | String "." r => take_digits r ip 0
      | _ => (ip, 0, after_int)
      end in
    if (icnt =? 0) && (fcnt =? 0) then PrimFloat.nan
    else decimal_value neg m (exponent_part after_frac - fcnt).

End Num.

(** ** JavaScript values *)

Module Js.

Inductive value : Type :=
| VUndefined
| VNull
| VBool (b : bool)
| VNum (n : Num.number)
| VStr (s : string)
| VObj (props : list (string * value))
| VArr (items : list value)
| VFun (name : string).

Definition typeof (v : value) : string :=
  match v with
  | VUndefined => "undefined"
  | VNull => "object"
  | VBool _ => "boolean"
  | VNum _ => "number"
  | VStr _ => "string"
  | VObj _ | VArr _ => "object"
  | VFun _ => "function"
  end.

(** ToBoolean. *)
Definition truthy (v : value) : bool :=
  match v with
  | VUndefined | VNull => false
  | VBool b => b
  | VNum n => Num.truthy n
  | VStr s => negb (String.eqb s "")
  | VObj _ | VArr _ | VFun _ => true
  end.

Fixpoint lookup (key : string) (props : list (string * value)) : option value :=
  match props with
  | [] => None
  | (k, v) :: rest => if String.eqb k key then Some v else lookup key rest
  end.

(** The methods every value inherits from [Object.prototype] (ECMA-262 20.1.3
    and B.2.2), besides [constructor]. *)
Definition Object_prototype_methods : list string :=
  [ "hasOwnProperty"; "isPrototypeOf"; "propertyIsEnumerable";
    "toLocaleString"; "toString"; "valueOf"; "__defineGetter__";
    "__defineSetter__"; "__lookupGetter__"; "__lookupSetter__" ].

(** What a read of [key] finds on [Object.prototype]: the function [Object]
    under [constructor], a method, named as its key, the prototype object
    itself under [__proto__], or nothing. *)
Definition inherited (key : string) : value :=
  if String.eqb key "constructor" then VFun "Object"
  else if existsb (String.eqb key) Object_prototype_methods then VFun key
  else if String.eqb key "__proto__" then VObj []
  else VUndefined.

(** Property read [v.key]: an own property first, then the prototype chain.
    A plain object is read faithfully under every key. Of the other values
    only what [Object.prototype] gives and the [name] of a function are
    modelled: their further own and inherited properties ([length], the
    methods of arrays and strings, ...) are none of the keys this program
    reads. The callers guard against [null] and [undefined], where
    JavaScript throws a [TypeError] instead. *)
Definition get (v : value) (key : string) : value :=
  match v with
  | VObj props =>
      match lookup key props with Some x => x | None => inherited key end
  | VUndefined | VNull => VUndefined
  | VFun name => if String.eqb key "name" then VStr name else inherited key
  | VBool _ | VNum _ | VStr _ | VArr _ => inherited key
  end.

(** [CreateDataProperty]: the value of an existing key is replaced where the
    key stands, a new key is added last. *)
Fixpoint define (props : list (string * value)) (k : string) (v : value)
  : list (string * value) :=
  match props with
  | [] => [(k, v)]
  | (k', v') :: rest =>
      if String.eqb k' k then (k', v) :: rest
      else (k', v') :: define rest k v
  end.

(** Decimal rendering of an integer, as a template literal prints it. *)
Definition show_Z (z : Z) : string := NilZero.string_of_int (Z.to_int z).

Fixpoint indexed (i : nat) (items : list value) : list (string * value) :=
  match items with
  | [] => []
  | x :: rest => (show_Z (Z.of_nat i), x) :: indexed (S i) rest
  end.

Fixpoint characters (s : string) : list value :=
  match s with
  | String c rest => VStr (String c EmptyString) :: characters rest
  | EmptyString => []
  end.

(** The own enumerable properties that [{...v}] copies. *)
Definition own_props (v : value) : list (string * value) :=
  match v with
  | VObj props => props
  | VArr items => indexed 0 items
  | VStr s => indexed 0 (characters s)
  | _ => []
  end.

(** The object literal [{...obj, key: v}]: the own properties of [obj] in
    their order, then [key], which keeps its place when [obj] has it. *)
Definition spread_with (obj : value) (key : string) (v : value) : value :=
  VObj (define (own_props obj) key v).

(** [a || b]. *)
Definition js_or (a b : value) : value := if truthy a then a else b.

(** [v === "literal"]. *)
Definition is_string (v : value) (lit : string) : bool :=
  match v with VStr s => String.eqb s lit | _ => false end.

(** The Number held by [v]; read only under a [typeof v === "number"] test. *)
Definition number_of (v : value) : Num.number :=
  match v with VNum n => n | _ => PrimFloat.nan end.

Definition isArray (v : value) : bool :=
  match v with VArr _ => true | _ => false end.

(** [s.includes(sub)]. *)
Fixpoint includes (s sub : string) : bool :=
  String.prefix sub s ||
  match s with
  | String _ rest => includes rest sub
  | EmptyString => false
  end.

Definition lower (c : ascii) : ascii :=
  let n := nat_of_ascii c in
  if Nat.leb 65 n && Nat.leb n 90 then ascii_of_nat (n + 32) else c.

(** Lowering of the letters [A] to [Z] alone. *)
Fixpoint lower_ascii (s : string) : string :=
  match s with
  | String c rest => String (lower c) (lower_ascii rest)
  | EmptyString => EmptyString
  end.

(** No byte of [s] is beyond ASCII. *)
Fixpoint is_ascii (s : string) : bool :=
  match s with
  | String c rest => Nat.ltb (nat_of_ascii c) 128 && is_ascii rest
  | EmptyString => true
  end.

(** Thrown values: [new Error(message)] and the platform's [TypeError] and
    [SyntaxError]. *)
Record exn : Type := Exn { exn_name : string; exn_message : string }.

Definition Error (message : string) : exn := Exn "Error" message.

(** Reading a property of [null] or [undefined]. *)
Definition no_properties : exn :=
  Exn "TypeError" "Cannot read properties of undefined".

Definition nullish (v : value) : bool :=
  match v with VUndefined | VNull => true | _ => false end.

(** [err && err.message ? err.message : err], as the console prints it. *)
Definition describe (e : exn) : string :=
  if String.eqb (exn_message e) "" then exn_name e else exn_message e.

End Js.

Import Js.

(** ** Configuration constants of [js/api.js] *)

Record config : Type := Config {
  GOOGLE_SHEETS_ENDPOINT : string;      (* POST, logging *)
  GOOGLE_SHEETS_GET_ENDPOINT : string   (* GET, ServerResponses *)
}.

(** The endpoints as the shipped file sets them. *)
Definition shipped_config : config :=
  {| GOOGLE_SHEETS_ENDPOINT :=
       "https://script.google.com/macros/s/AKfycbzBhtoJ1pvYZJmlcGBwc5Z3YUk2kE7euqbP6cZyFxDBVEG5RYLlA8M9gGDczUVKfNRY/exec";
     GOOGLE_SHEETS_GET_ENDPOINT :=
       "https://script.google.com/macros/library/d/1HZQfrnjnn_OLjBzkCXK8Tp6LIusSa6gJf4ulKMftbIs8Uypy-JfgPTmy/4" |}.

Definition DEFAULT_POLL_INTERVAL_MS : Num.number := 10000%float.
Definition DEFAULT_POLL_TIMEOUT_MS : Num.number := 120000%float.

(** ** The JSONP bridge as a transition system

    The closure of the promise executor of [fetchServerResponseJSONP] holds
    the injected [script] element, the [timeoutId] and the entry
    [window[callbackName]]; the promise it settles is first-settlement-wins,
    as every JavaScript promise. *)

Module Bridge.

Inductive promise_state : Type :=
| Pending
| Fulfilled (payload : value)
| Rejected (reason : exn).

Record state : Type := State {
  script_attached : bool;      (* [script.parentNode] is the document body *)
  callback_registered : bool;  (* [window[callbackName]] is the handler *)
  timer_armed : bool;          (* the timeout guard is still to fire *)
  removals : nat;              (* calls of [removeChild] so far *)
  promise : promise_state
}.

Definition not_configured : exn :=
  Error "GOOGLE_SHEETS_GET_ENDPOINT not configured.".
Definition timed_out : exn := Error "JSONP request timed out".
Definition load_error : exn := Error "JSONP script load error".

(** [resolve(v)] and [reject(e)]: no effect on a settled promise. *)
Definition settle (outcome : promise_state) (b : state) : state :=
  match promise b with
  | Pending =>
      State (script_attached b) (callback_registered b) (timer_armed b)
            (removals b) outcome
  | _ => b
  end.

(** The state the executor leaves behind: with an empty endpoint it rejects
    before creating anything; otherwise the timer is armed, the callback is
    registered and the script is appended to the document. *)
Definition start (endpoint : string) : state :=
  if String.eqb endpoint ""
  then State false false false 0 (Rejected not_configured)
  else State true true true 0 Pending.

(** The closure [cleanup]. *)
Definition cleanup (b : state) : state :=
  let b1 :=
    if script_attached b   (* script && script.parentNode *)
    then State false (callback_registered b) (timer_armed b)
               (S (removals b)) (promise b)
    else b in
  (* delete window[callbackName] *)
  let b2 := State (script_attached b1) false (timer_armed b1)
                  (removals b1) (promise b1) in
  (* if (timeoutId) clearTimeout(timeoutId) *)
  State (script_attached b2) (callback_registered b2) false
        (removals b2) (promise b2).

(** What the page can observe after the executor returned: the loaded script
    calls the callback name with a payload, the timer queue reaches the
    timeout guard, or the script element reports a load error. A call through
    a deleted callback name and a cleared timer do nothing. *)
Inductive event : Type :=
| ScriptCalls (payload : value)
| TimerElapsed
| ScriptError.

Definition step (b : state) (ev : event) : state :=
  match ev with
  | ScriptCalls data =>
      if callback_registered b
      then settle (Fulfilled data) (cleanup b)
      else b
  | TimerElapsed =>
      if timer_armed b
      then settle (Rejected timed_out) (cleanup b)
      else b
  | ScriptError => settle (Rejected load_error) (cleanup b)
  end.

Definition run (b : state) (evs : list event) : state := fold_left step evs b.

(** All three resources of the closure are released. *)
Definition torn_down (b : state) : Prop :=
  script_attached b = false /\ callback_registered b = false
  /\ timer_armed b = false.

(** The three settlements of the bridge contract. *)
Definition three_way (p : promise_state) : Prop :=
  (exists data, p = Fulfilled data)
  \/ p = Rejected timed_out
  \/ p = Rejected load_error.

(** The settlement an event asks for. *)
Definition verdict (ev : event) : promise_state :=
  match ev with
  | ScriptCalls data => Fulfilled data
  | TimerElapsed => Rejected timed_out
  | ScriptError => Rejected load_error
  end.

(** The settlement an invocation reaches: the page's events are followed by
    the timer queue reaching the guard, which setTimeout guarantees. *)
Definition outcome (endpoint : string) (evs : list event) : promise_state :=
  promise (run (start endpoint) (evs ++ [TimerElapsed])).

End Bridge.

(** ** Environment, world and the monad of asynchronous code *)

Record response : Type := Response {
  status : Z;
  body_text : option string;   (* [None]: reading the body fails *)
  body_json : option value     (* [None]: the body is not JSON *)
}.

Definition ok (r : response) : bool := (200 <=? status r) && (status r <=? 299).

Inductive fetch_outcome : Type :=
| NetworkFailure (e : exn)
| Responded (r : response).

(** What the page does not decide: platform functions left abstract and the
    scripted behaviour of the network and of the timer queue, per call. *)
Record env : Type := Env {
  encodeURIComponent : string -> string;
  Number_toString : Num.number -> string;
  Function_toString : string -> string;
  JSON_stringify : value -> string;
  toISOString : Z -> string;
  toLocaleTimeString : Z -> string;
  Math_random : nat -> Num.number;
  random_token : nat -> string;  (* Math.random().toString(36).slice(2, 10) *)
  String_toLowerCase : string -> string;  (* on strings beyond ASCII *)
  callback_raises : nat -> option exn;
    (* what the [k]-th call of a function of the caller throws, if anything *)
  script_events : nat -> list Bridge.event;
  script_ms : nat -> N;
  fetch_reply : nat -> fetch_outcome;
  fetch_ms : nat -> N;
  timer_lag : nat -> N
}.

Inductive handler : Type :=
| User (f : value)   (* the function passed in [options] *)
| Noop.              (* [() => {}] *)

Inductive event : Type :=
| EvSetTimeout (ms : Z)
| EvInjectScript (url : string)
| EvFetch (method url mode : string) (body : option string)
| EvSleep (ms : Z)
| EvConsole (level text detail : string)
| EvOnPending (h : handler)
| EvOnError (h : handler) (e : exn).

Definition is_network (ev : event) : bool :=
  match ev with
  | EvInjectScript _ | EvFetch _ _ _ _ => true
  | _ => false
  end.

Definition is_on_pending (ev : event) : bool :=
  match ev with EvOnPending _ => true | _ => false end.

Definition is_on_error (ev : event) : bool :=
  match ev with EvOnError _ _ => true | _ => false end.

Definition is_callback (ev : event) : bool :=
  is_on_pending ev || is_on_error ev.

Definition count (p : event -> bool) (l : list event) : nat :=
  List.length (filter p l).

Record world : Type := World {
  now : Z;             (* Date.now() *)
  attempts : nat;      (* calls of fetchServerResponse so far *)
  injections : nat;    (* bridge invocations so far *)
  fetches : nat;       (* fetch() calls so far *)
  sleeps : nat;        (* timers awaited so far *)
  trace : list event   (* observable effects, oldest first *)
}.

Definition initial_world (t : Z) : world := World t 0 0 0 0 [].

(** [w] with the events [l] added to its trace. *)
Definition record (w : world) (l : list event) : world :=
  World (now w) (attempts w) (injections w) (fetches w) (sleeps w)
        (trace w ++ l).

Inductive result (A : Type) : Type :=
| Ok (a : A)
| Throw (e : exn).
Arguments Ok {A} a.
Arguments Throw {A} e.

Definition M (A : Type) : Type := env -> world -> result A * world.

Definition ret {A} (a : A) : M A := fun _ w => (Ok a, w).
Definition throw {A} (e : exn) : M A := fun _ w => (Throw e, w).

Definition bind {A B} (c : M A) (k : A -> M B) : M B :=
  fun E w =>
    match c E w with
    | (Ok a, w') => k a E w'
    | (Throw e, w') => (Throw e, w')
    end.

(** [try { c } catch (err) { h err }]. *)
Definition try_catch {A} (c : M A) (h : exn -> M A) : M A :=
  fun E w =>
    match c E w with
    | (Ok a, w') => (Ok a, w')
    | (Throw e, w') => h e E w'
    end.

Notation "x <- c ;; k" := (bind c (fun x => k))
  (at level 61, c at next level, right associativity).
Notation "c ;;; k" := (bind c (fun _ => k))
  (at level 61, right associativity).

Definition emit (ev : event) : M unit :=
  fun _ w =>
    (Ok tt, World (now w) (attempts w) (injections w) (fetches w) (sleeps w)
                  (trace w ++ [ev])).

Definition Date_now : M Z := fun _ w => (Ok (now w), w).

Definition ask {A} (f : env -> A) : M A := fun E w => (Ok (f E), w).

Definition console (level text detail : string) : M unit :=
  emit (EvConsole level text detail).

(** Entering [fetchServerResponse]. *)
Definition count_attempt : M unit :=
  fun _ w =>
    (Ok tt, World (now w) (S (attempts w)) (injections w) (fetches w)
                  (sleeps w) (trace w)).

(** The delay [setTimeout] keeps of the whole number [ms] it is asked for: the
    argument is a Web IDL [long], so [ms] is taken modulo [2^32] into the
    signed 32-bit range, and a negative delay counts as none. *)
Definition to_int32 (z : Z) : Z := (z + 2 ^ 31) mod 2 ^ 32 - 2 ^ 31.

Definition timer_delay (ms : Z) : Z := Z.max 0 (to_int32 ms).

(** [await new Promise((r) => setTimeout(r, ms))]: the clock moves on by the
    delay the timer keeps and by whatever the timer queue adds. *)
Definition sleep (ms : Z) : M unit :=
  fun E w =>
    let k := sleeps w in
    (Ok tt, World (now w + timer_delay ms + Z.of_N (timer_lag E k))
                  (attempts w) (injections w) (fetches w) (S k)
                  (trace w ++ [EvSleep ms])).

(** What the call of [h] entered in [w] throws, if anything: [() => {}]
    returns, a function of the caller does what the environment says of its
    calls, counted over both callbacks. *)
Definition raised (h : handler) (E : env) (w : world) : option exn :=
  match h with
  | Noop => None
  | User _ => callback_raises E (count is_callback (trace w))
  end.

(** A call of a callback: recorded in the trace as [ev], it returns or
    throws. *)
Definition call (h : handler) (ev : event) : M unit :=
  fun E w =>
    (match raised h E w with Some e => Throw e | None => Ok tt end,
     record w [ev]).

(** [s.toLowerCase()]: the letters [A] to [Z] are lowered and no other byte
    of an ASCII string changes; beyond ASCII the mapping is the platform's,
    and its result holds none of [A] to [Z] either. *)
Definition toLowerCase (E : env) (s : string) : string :=
  lower_ascii (if is_ascii s then s else String_toLowerCase E s).

(** [await fetch(url, { method, mode, body })]. *)
Definition fetch (method url mode : string) (body : option string)
  : M response :=
  fun E w =>
    let k := fetches w in
    let w' := World (now w + Z.of_N (fetch_ms E k)) (attempts w)
                    (injections w) (S k) (sleeps w)
                    (trace w ++ [EvFetch method url mode body]) in
    match fetch_reply E k with
    | NetworkFailure e => (Throw e, w')
    | Responded r => (Ok r, w')
    end.

(** [await res.text().catch(() => "")] and [await res.json()]. *)
Definition text_or_empty (r : response) : string :=
  match body_text r with Some t => t | None => "" end.

Definition json (r : response) : M value :=
  match body_json r with
  | Some v => ret v
  | None => throw (Exn "SyntaxError" "Unexpected token in JSON")
  end.

(** ToString, as template literals and [parseFloat] apply it. *)
Fixpoint to_string (E : env) (v : value) : string :=
  match v with
  | VUndefined => "undefined"
  | VNull => "null"
  | VBool true => "true"
  | VBool false => "false"
  | VNum n => Number_toString E n
  | VStr s => s
  | VObj _ => "[object Object]"
  | VArr items =>
      String.concat ","
        (map (fun x => match x with
                       | VUndefined | VNull => ""
                       | _ => to_string E x
                       end) items)
  | VFun name => Function_toString E name
  end.

(** ** MOCK INFERENCE *)

Definition mockInfer (formData : value) : M value :=
  rnd <- (fun E w => (Ok (Math_random E (sleeps w)), w)) ;;
  let delay := (1000 + rnd * 2000)%float in
  sleep (Num.to_Z delay) ;;;
  if nullish formData then throw no_properties else
  snr_text <- ask (fun E => to_string E (get formData "snr")) ;;
  depth_text <- ask (fun E => to_string E (get formData "transit_depth")) ;;
  let snr :=
    let parsed := Num.parseFloat snr_text in
    if Num.truthy parsed then parsed else 10%float in
  let transitDepth :=
    let parsed := Num.parseFloat depth_text in
    if Num.truthy parsed then parsed else 5000%float in
  let snrFactor := Num.Math_min [(snr / 20)%float; 1%float] in
  let depthFactor := Num.Math_min [(transitDepth / 10000)%float; 1%float] in
  let baseProbability :=
    (0.3 + snrFactor * 0.3 + depthFactor * 0.3)%float in
  let probability := (Num.Math_round (baseProbability * 1000) / 1000)%float in
  let '(confidenceLevel, signalStrength) :=
    if PrimFloat.leb 0.75 probability then ("High likelihood", "Strong")
    else if PrimFloat.leb 0.5 probability then ("Moderate likelihood", "Moderate")
    else ("Low likelihood", "Weak") in
  t <- Date_now ;;
  clock <- ask (fun E => toLocaleTimeString E t) ;;
  str <- ask (fun E k => to_string E (get formData k)) ;;
  lowered <- ask (fun E => toLowerCase E signalStrength) ;;
  let comments :=
    [ VStr (signalStrength ++ " transit signal detected for " ++ str "object_id");
      VStr ("Signal-to-noise ratio: " ++ str "snr");
      VStr ("Transit depth: " ++ str "transit_depth" ++ " ppm");
      VStr ("Orbital period: " ++ str "orbital_period" ++ " days");
      VStr ("Transit duration: " ++ str "transit_duration" ++ " hours");
      VStr ("Planet radius: " ++ str "planet_radius" ++ " R⊕");
      VStr ("Equilibrium temperature: " ++ str "eq_temperature" ++ " K");
      VStr ("Stellar properties: " ++ str "stellar_mass" ++ " M☉, "
            ++ str "stellar_temp" ++ " K");
      VStr ("Processing completed at " ++ clock) ] in
  ret (VObj
    [ ("probability", VNum probability);
      ("summary",
       VStr (confidenceLevel ++ " of confirmed exoplanet based on "
             ++ lowered
             ++ " transit signature and favorable orbital parameters."));
      ("data_comments", VArr comments) ]).

(** ** VALIDATION *)

Definition validateResponse (data : value) : value :=
  if negb (truthy data) then data
  else
    VBool
      (String.eqb (typeof (get data "probability")) "number"
       && PrimFloat.leb 0 (number_of (get data "probability"))
       && PrimFloat.leb (number_of (get data "probability")) 1
       && String.eqb (typeof (get data "summary")) "string"
       && isArray (get data "data_comments")).

(** ** GOOGLE SHEETS LOGGING (POST) *)

Definition post_placeholders : list string :=
  ["YOUR_POST_DEPLOY_ID"; "YOUR_POST_DEPLOY_ID_HERE"; "YOUR_POST_DEPLOY_URL"].

Definition get_placeholders : list string :=
  ["YOUR_GET_DEPLOY_ID"; "YOUR_GET_DEPLOY_ID_HERE"; "YOUR_GET_DEPLOY_URL"].

(** [!endpoint || endpoint.includes(m1) || endpoint.includes(m2) || ...]. *)
Definition unconfigured (endpoint : string) (markers : list string) : bool :=
  String.eqb endpoint "" || existsb (includes endpoint) markers.

Definition logToGoogleSheets (cfg : config) (formData : value) : M bool :=
  let endpoint := GOOGLE_SHEETS_ENDPOINT cfg in
  if unconfigured endpoint post_placeholders then
    console "warn" "GOOGLE_SHEETS_ENDPOINT not configured — skipping logging." "" ;;;
    ret false
  else
    t <- Date_now ;;
    stamp <- ask (fun E => toISOString E t) ;;
    let payload := spread_with formData "timestamp" (VStr stamp) in
    body <- ask (fun E => JSON_stringify E payload) ;;
    logged <-
      try_catch
        (resp <- fetch "POST" endpoint "cors" (Some body) ;;
         if ok resp then
           console "log" "Logged to Google Sheets (POST) — server responded OK." "" ;;;
           ret true
         else
           console "warn" "POST to Google Sheets returned status:"
                   (show_Z (status resp)) ;;;
           ret false)
        (fun err =>
           console "warn" "Normal POST to Google Sheets failed (maybe CORS):"
                   (describe err) ;;;
           ret false) ;;
    if logged then ret true
    else
      try_catch
        (fetch "POST" endpoint "no-cors" (Some body) ;;;
         console "log" "logToGoogleSheets: POST sent (no-cors)." "" ;;;
         ret true)
        (fun err =>
           console "error" "logToGoogleSheets: failed to send POST (no-cors):"
                   (describe err) ;;;
           ret false).

(** ** GOOGLE SHEETS FETCH (JSONP first, fetch() as fallback) *)

(** The URL of the injected script. *)
Definition bridge_url
  (E : env) (endpoint object_id callbackName : string) (t : Z) : string :=
  let sep := if includes endpoint "?" then "&" else "?" in
  endpoint ++ sep ++ "object_id=" ++ encodeURIComponent E object_id
  ++ "&callback=" ++ callbackName ++ "&ts=" ++ show_Z t.

(** How long the [k]-th invocation of the bridge takes. Its first event
    settles it: the timeout guard fires after the delay its timer keeps and
    whatever the timer queue adds, the script answers or fails after
    [script_ms], which is before the guard. *)
Definition bridge_ms (E : env) (k : nat) (timeoutMs : Z) : Z :=
  match hd Bridge.TimerElapsed (script_events E k ++ [Bridge.TimerElapsed]) with
  | Bridge.TimerElapsed => timer_delay timeoutMs + Z.of_N (script_ms E k)
  | _ => Z.min (Z.of_N (script_ms E k)) (timer_delay timeoutMs)
  end.

Definition fetchServerResponseJSONP
  (cfg : config) (object_id : string) (timeoutMs : Z) : M value :=
  fun E w =>
    let endpoint := GOOGLE_SHEETS_GET_ENDPOINT cfg in
    if String.eqb endpoint "" then (Throw Bridge.not_configured, w)
    else
      let k := injections w in
      let callbackName := "gs_cb_" ++ random_token E k in
      let url := bridge_url E endpoint object_id callbackName (now w) in
      let w' :=
        World (now w + bridge_ms E k timeoutMs) (attempts w) (S k) (fetches w)
              (sleeps w)
              (trace w ++ [EvSetTimeout timeoutMs; EvInjectScript url]) in
      match Bridge.outcome endpoint (script_events E k) with
      | Bridge.Fulfilled data => (Ok data, w')
      | Bridge.Rejected e => (Throw e, w')
      | Bridge.Pending => (Throw Bridge.timed_out, w')
      end.

Definition get_not_configured : exn :=
  Error "GOOGLE_SHEETS_GET_ENDPOINT not configured in api.js.".

(** The URL of the fallback request. *)
Definition direct_url (E : env) (endpoint object_id : string) (t : Z) : string :=
  endpoint ++ "?object_id=" ++ encodeURIComponent E object_id
  ++ "&ts=" ++ show_Z t.

Definition fetchServerResponse (cfg : config) (object_id : string) : M value :=
  count_attempt ;;;
  let endpoint := GOOGLE_SHEETS_GET_ENDPOINT cfg in
  if unconfigured endpoint get_placeholders then throw get_not_configured
  else
    try_catch
      (data <- fetchServerResponseJSONP cfg object_id 15000 ;;
       ret data)
      (fun jsonpErr =>
         console "warn" "JSONP attempt failed, trying fetch() fallback:"
                 (describe jsonpErr) ;;;
         t <- Date_now ;;
         url <- ask (fun E => direct_url E endpoint object_id t) ;;
         res <- fetch "GET" url "cors" None ;;
         if negb (ok res) then
           throw (Error ("GET failed (" ++ show_Z (status res) ++ "): "
                         ++ text_or_empty res))
         else json res).

(** ** POLLING *)

Definition handler_of (v : value) : handler :=
  if String.eqb (typeof v) "function" then User v else Noop.

Definition poll_timed_out : exn :=
  Error "Polling timed out (no server response within timeout).".

(** The body of the [while] loop up to the sleep: [on_response] is the rest
    of the [try] block once the fetch has answered, [on_failure] the [catch]
    block; [Some data] is [return data], [None] falls through to the sleep.
    What [onPending] throws is thrown inside the [try] block and so caught
    by the [catch] block; what [onError] throws leaves the loop. *)
Definition on_response (onPending : handler) (data : value)
  : M (option value) :=
  (if truthy data && is_string (get data "status") "pending"
   then call onPending (EvOnPending onPending)
   else ret tt) ;;;
  if truthy data && String.eqb (typeof (get data "procent")) "number"
  then ret (Some data)
  else call onPending (EvOnPending onPending) ;;; ret None.

Definition on_failure (onError : handler) (err : exn) : M (option value) :=
  call onError (EvOnError onError err) ;;;
  console "warn" "pollServerResponse attempt error, will retry:"
          (describe err) ;;;
  ret None.

Definition poll_attempt
  (cfg : config) (object_id : string) (onPending onError : handler)
  : M (option value) :=
  try_catch
    (data <- fetchServerResponse cfg object_id ;;
     on_response onPending data)
    (on_failure onError).

(** The [while (Date.now() - start < timeout)] loop; [None] when [fuel]
    iterations were not enough to leave it. *)
Fixpoint poll_loop
  (fuel : nat) (cfg : config) (object_id : string) (interval timeout : Z)
  (onPending onError : handler) (start : Z) (E : env) (w : world)
  : option (result value * world) :=
  if now w - start <? timeout then
    match fuel with
    | O => None
    | S fuel' =>
        match poll_attempt cfg object_id onPending onError E w with
        | (Ok (Some data), w1) => Some (Ok data, w1)
        | (Ok None, w1) =>
            poll_loop fuel' cfg object_id interval timeout onPending onError
                      start E (snd (sleep interval E w1))
        | (Throw e, w1) => Some (Throw e, w1)
        end
    end
  else Some (Throw poll_timed_out, w).

(** How a run of the model ends: with the result of the call, out of fuel,
    or outside the model (an interval or a timeout that is not a Number, or
    a timeout that is infinite). *)
Inductive termination (A : Type) : Type :=
| Done (a : A)
| OutOfFuel
| Unmodelled.
Arguments Done {A} a.
Arguments OutOfFuel {A}.
Arguments Unmodelled {A}.

Definition whole_ms (v : value) : option Z :=
  match v with VNum n => Num.whole n | _ => None end.

(** What [setTimeout] is asked for when given the Number [interval]: its
    integral part, [0] for an infinity. *)
Definition interval_ms (v : value) : option Z :=
  match v with VNum n => Some (Num.to_Z n) | _ => None end.

(** [elapsed < timeout] for the whole number [elapsed] and a finite Number
    [timeout] is [elapsed < ceiling timeout]. *)
Definition timeout_ms (v : value) : option Z :=
  match v with
  | VNum n => if Num.isFinite n then Some (Num.ceiling n) else None
  | _ => None
  end.

Definition poll_interval (options : value) : value :=
  js_or (get options "interval") (VNum DEFAULT_POLL_INTERVAL_MS).

Definition poll_timeout (options : value) : value :=
  js_or (get options "timeout") (VNum DEFAULT_POLL_TIMEOUT_MS).

Definition pollServerResponse
  (fuel : nat) (cfg : config) (object_id : string) (options : value)
  (E : env) (w : world) : termination (result value * world) :=
  let options := match options with VUndefined => VObj [] | o => o end in
  match options with
  | VNull => Done (Throw no_properties, w)
  | _ =>
      let interval := poll_interval options in
      let timeout := poll_timeout options in
      let onPending := handler_of (get options "onPending") in
      let onError := handler_of (get options "onError") in
      let start := now w in
      match interval_ms interval, timeout_ms timeout with
      | Some i, Some t =>
          match poll_loop fuel cfg object_id i t onPending onError start E w with
          | Some r => Done r
          | None => OutOfFuel
          end
      | _, _ => Unmodelled
      end
  end.

(** ** [processData]: the result shown for a server response *)

Definition processData_results (E : env) (serverResp : value) : option value :=
  if truthy serverResp
     && String.eqb (typeof (get serverResp "procent")) "number"
  then
    let procent := number_of (get serverResp "procent") in
    let probability :=
      Num.Math_max [0%float; Num.Math_min [1%float; (procent / 100)%float]] in
    Some (VObj
      [ ("probability", VNum probability);
        ("summary", VStr "Server analysis result (from Google Sheet).");
        ("data_comments",
         VArr [ VStr ("Server-provided procent: "
                      ++ to_string E (VNum procent) ++ "%");
                if truthy (get serverResp "timestamp")
                then VStr ("Timestamp: "
                           ++ to_string E (get serverResp "timestamp"))
                else VStr "No timestamp provided" ]) ])
  else None.

(** ** Notions used by the statements *)

(** [clamp(x, lo, hi)]. *)
Definition clamp (x lo hi : Num.number) : Num.number :=
  if PrimFloat.ltb x lo then lo
  else if PrimFloat.ltb hi x then hi
  else x.

Definition finite_number (v : value) : bool :=
  match v with VNum n => Num.isFinite n | _ => false end.

(** A finite numeric terminal field under either spelling. *)
Definition carries_finite_percent (data : value) : bool :=
  finite_number (get data "percent") || finite_number (get data "procent").

(** What the loop tests: [data && typeof data.procent === "number"]. *)
Definition has_numeric_procent (data : value) : bool :=
  truthy data && String.eqb (typeof (get data "procent")) "number".

Definition has_pending_marker (data : value) : bool :=
  truthy data && is_string (get data "status") "pending".

Definition ceil_div (a b : Z) : Z := (a + b - 1) / b.

(** The result of the direct transport for one reply of the network. *)
Definition direct_result (reply : fetch_outcome) : result value :=
  match reply with
  | NetworkFailure e => Throw e
  | Responded r =>
      if ok r then
        match body_json r with
        | Some v => Ok v
        | None => Throw (Exn "SyntaxError" "Unexpected token in JSON")
        end
      else Throw (Error ("GET failed (" ++ show_Z (status r) ++ "): "
                         ++ text_or_empty r))
  end.

(** The world after the bridge attempt of a call entered in [w], and after the
    fallback request that follows a bridge failure [e]. *)
Definition after_bridge (cfg : config) (object_id : string) (E : env) (w : world)
  : world :=
  let k := injections w in
  World (now w + bridge_ms E k 15000) (S (attempts w)) (S k) (fetches w)
        (sleeps w)
        (trace w ++
         [EvSetTimeout 15000;
          EvInjectScript
            (bridge_url E (GOOGLE_SHEETS_GET_ENDPOINT cfg) object_id
                        ("gs_cb_" ++ random_token E k) (now w))]).

Definition after_fallback
  (cfg : config) (object_id : string) (E : env) (w : world) (e : exn) : world :=
  let wb := after_bridge cfg object_id E w in
  World (now wb + Z.of_N (fetch_ms E (fetches w))) (attempts wb)
        (injections wb) (S (fetches w)) (sleeps wb)
        ((trace wb ++
          [EvConsole "warn" "JSONP attempt failed, trying fetch() fallback:"
                     (describe e)]) ++
         [EvFetch "GET"
                  (direct_url E (GOOGLE_SHEETS_GET_ENDPOINT cfg) object_id
                              (now wb))
                  "cors" None]).

(** [w] once [fetchServerResponse] has been entered. *)
Definition entered (w : world) : world :=
  World (now w) (S (attempts w)) (injections w) (fetches w) (sleeps w)
        (trace w).

(** Both request URLs in one shape: endpoint, separator, the identifier, the
    callback parameter when there is one, the cache buster. *)
Definition query_url
  (endpoint sep encoded_id : string) (callback : option string) (t : Z)
  : string :=
  endpoint ++ sep ++ "object_id=" ++ encoded_id
  ++ match callback with
     | Some cb => "&callback=" ++ cb ++ "&ts=" ++ show_Z t
     | None => "&ts=" ++ show_Z t
     end.

(** The callback [h] returns normally whenever it is called. *)
Definition returns (h : handler) (E : env) : Prop :=
  forall w, raised h E w = None.

(** The calls of the callbacks and the console. *)
Definition is_notice (ev : event) : bool :=
  match ev with
  | EvOnPending _ | EvOnError _ _ | EvConsole _ _ _ => true
  | _ => false
  end.

(** One iteration of the loop that falls through: an attempt, then the
    sleep. *)
Definition poll_round
  (cfg : config) (object_id : string) (onPending onError : handler)
  (interval : Z) (E : env) (w : world) : world :=
  snd (sleep interval E
         (snd (poll_attempt cfg object_id onPending onError E w))).

(** What an iteration on an unconfigured endpoint adds to the trace: the call
    of [onError] with the configuration error, the warning and the sleep. *)
Definition refusal_round (onError : handler) (interval : Z) : list event :=
  [ EvOnError onError get_not_configured;
    EvConsole "warn" "pollServerResponse attempt error, will retry:"
              (describe get_not_configured);
    EvSleep interval ].

(** [w'] is [w] some steps later: the clock and the counters have not gone
    back and the trace has only grown. *)
Definition later (w w' : world) : Prop :=
  now w <= now w'
  /\ (attempts w <= attempts w')%nat
  /\ (sleeps w <= sleeps w')%nat
  /\ exists l, trace w' = (trace w ++ l)%list.

(** ** Fixtures *)

Definition pending_response : value := VObj [("status", VStr "pending")].

(** A test double of the platform: the bridge delivers [events k] on its
    [k]-th invocation, [fetch] answers [reply k]; scripts and requests
    answer at once, timers are exact and callbacks return. *)
Definition test_env
  (events : nat -> list Bridge.event) (reply : nat -> fetch_outcome) : env :=
  {| encodeURIComponent := fun s => s;
     Number_toString := fun _ => "<number>";
     Function_toString := fun name => name;
     JSON_stringify := fun _ => "{}";
     toISOString := fun _ => "1970-01-01T00:00:00.000Z";
     toLocaleTimeString := fun _ => "00:00:00";
     Math_random := fun _ => 0.5%float;
     random_token := fun _ => "k3j9x0q1";
     String_toLowerCase := fun s => s;
     callback_raises := fun _ => None;
     script_events := events;
     script_ms := fun _ => 0%N;
     fetch_reply := reply;
     fetch_ms := fun _ => 0%N;
     timer_lag := fun _ => 0%N |}.

Definition failed_to_fetch : exn := Exn "TypeError" "Failed to fetch".

(** The bridge always answers [{status: "pending"}]. *)
Definition always_pending : env :=
  test_env (fun _ => [Bridge.ScriptCalls pending_response])
           (fun _ => NetworkFailure failed_to_fetch).

(** Nothing answers: the bridge times out and [fetch] fails. *)
Definition offline : env :=
  test_env (fun _ => []) (fun _ => NetworkFailure failed_to_fetch).

(** The server cannot be reached: the script fails to load and [fetch]
    fails. *)
Definition unreachable : env :=
  test_env (fun _ => [Bridge.ScriptError])
           (fun _ => NetworkFailure failed_to_fetch).

(** [E] with callbacks that throw [e] at every call. *)
Definition raising (e : exn) (E : env) : env :=
  {| encodeURIComponent := encodeURIComponent E;
     Number_toString := Number_toString E;
     Function_toString := Function_toString E;
     JSON_stringify := JSON_stringify E;
     toISOString := toISOString E;
     toLocaleTimeString := toLocaleTimeString E;
     Math_random := Math_random E;
     random_token := random_token E;
     String_toLowerCase := String_toLowerCase E;
     callback_raises := fun _ => Some e;
     script_events := script_events E;
     script_ms := script_ms E;
     fetch_reply := fetch_reply E;
     fetch_ms := fetch_ms E;
     timer_lag := timer_lag E |}.

Definition listener_failed : exn := Exn "RangeError" "listener failed".

(** [E] with scripts that take [ms] to answer, and with timers that are [ms]
    late. *)
Definition answering_after (ms : N) (E : env) : env :=
  {| encodeURIComponent := encodeURIComponent E;
     Number_toString := Number_toString E;
     Function_toString := Function_toString E;
     JSON_stringify := JSON_stringify E;
     toISOString := toISOString E;
     toLocaleTimeString := toLocaleTimeString E;
     Math_random := Math_random E;
     random_token := random_token E;
     String_toLowerCase := String_toLowerCase E;
     callback_raises := callback_raises E;
     script_events := script_events E;
     script_ms := fun _ => ms;
     fetch_reply := fetch_reply E;
     fetch_ms := fetch_ms E;
     timer_lag := timer_lag E |}.

Definition late_by (ms : N) (E : env) : env :=
  {| encodeURIComponent := encodeURIComponent E;
     Number_toString := Number_toString E;
     Function_toString := Function_toString E;
     JSON_stringify := JSON_stringify E;
     toISOString := toISOString E;
     toLocaleTimeString := toLocaleTimeString E;
     Math_random := Math_random E;
     random_token := random_token E;
     String_toLowerCase := String_toLowerCase E;
     callback_raises := callback_raises E;
     script_events := script_events E;
     script_ms := script_ms E;
     fetch_reply := fetch_reply E;
     fetch_ms := fetch_ms E;
     timer_lag := fun _ => ms |}.

(** The options [{interval: 2147483648, timeout: 50}]: an interval of
    [2^31] ms. *)
Definition overlong_interval : value :=
  VObj [("interval", VNum 2147483648%float); ("timeout", VNum 50%float)].

Definition on_pending_listener : handler := User (VFun "onPending").
Definition on_error_listener : handler := User (VFun "onError").

(** The options of the timeout scenario: [{interval: 10, timeout: 50,
    onPending, onError}]. *)
Definition scenario_options (onPending onError : value) : value :=
  VObj [("interval", VNum 10%float); ("timeout", VNum 50%float);
        ("onPending", onPending); ("onError", onError)].

Definition toi_700_result : value :=
  VObj [("procent", VNum 87.2%float);
        ("timestamp", VStr "2024-01-01T00:00:00Z")].

(** Pending on the first call, the result on the second. *)
Definition second_call_completes : env :=
  test_env (fun k => match k with
                     | O => [Bridge.ScriptCalls pending_response]
                     | _ => [Bridge.ScriptCalls toi_700_result]
                     end)
           (fun _ => NetworkFailure failed_to_fetch).

(** The terminal field under the spelling [percent], and an infinite
    [procent]. *)
Definition spelled_percent : value := VObj [("percent", VNum 87.2%float)].
Definition infinite_procent : value :=
  VObj [("procent", VNum PrimFloat.infinity)].

(** Endpoints left unconfigured: no GET endpoint, a placeholder in the POST
    endpoint. *)
Definition placeholder_config : config :=
  {| GOOGLE_SHEETS_ENDPOINT :=
       "https://script.google.com/macros/s/YOUR_POST_DEPLOY_ID/exec";
     GOOGLE_SHEETS_GET_ENDPOINT := "" |}.

(** A GET endpoint that already holds a query string. *)
Definition query_config : config :=
  {| GOOGLE_SHEETS_ENDPOINT := "https://example.org/exec";
     GOOGLE_SHEETS_GET_ENDPOINT := "https://example.org/exec?sheet=2" |}.

(** A submitted form with a negative signal-to-noise ratio. *)
Definition negative_snr_form : value :=
  VObj [("object_id", VStr "TOI-700"); ("snr", VStr "-100");
        ("transit_depth", VStr "5000")].

Definition strong_signal_form : value :=
  VObj [("object_id", VStr "TOI-700"); ("snr", VStr "20");
        ("transit_depth", VStr "10000")].

(** Probability that [processData] shows for a server response. *)
Definition probability_shown (E : env) (serverResp : value)
  : option Num.number :=
  match processData_results E serverResp with
  | Some results => Some (number_of (get results "probability"))
  | None => None
  end.

(** [1] as a specified float. *)
Definition SF_one : spec_float := Eval vm_compute in Prim2SF 1%float.

(** ** REAL API (optional file upload) *)

Definition API_ENDPOINT : string := "https://your-model-api.example.com/predict".
Definition API_KEY : string := "your-api-key-here".
Definition REQUEST_TIMEOUT : Z := 30000.

(** [uploadWithProgress]: the promise around one [XMLHttpRequest], as a
    transition system over the events its four listeners receive. *)
Module Upload.

Inductive xhr_event : Type :=
| Progress (lengthComputable : bool) (loaded total : Z)
| Load (status : Z) (responseText : string) (parsed : option value)
    (* [parsed]: [JSON.parse(responseText)], [None] when it throws *)
| NetworkError
| Timeout.

Record state : Type := State {
  reported : list Num.number;       (* arguments of [progressCallback] so far *)
  promise : Bridge.promise_state
}.

Definition initial : state := State [] Bridge.Pending.

Definition settle (outcome : Bridge.promise_state) (s : state) : state :=
  match promise s with
  | Bridge.Pending => State (reported s) outcome
  | _ => s
  end.

(** [Math.round((e.loaded / e.total) * 100)]. *)
Definition percent (loaded total : Z) : Num.number :=
  Num.Math_round ((Num.of_Z loaded / Num.of_Z total) * 100)%float.

Definition parse_failed : exn := Error "Failed to parse API response".
Definition upload_failed (status : Z) (responseText : string) : exn :=
  Error ("Upload failed (" ++ show_Z status ++ "): " ++ responseText).
Definition network_error : exn := Error "Network error during upload".
Definition timed_out : exn := Error "Upload timed out".

Definition step (progressCallback : value) (s : state) (ev : xhr_event)
  : state :=
  match ev with
  | Progress lengthComputable loaded total =>
      if lengthComputable && String.eqb (typeof progressCallback) "function"
      then State (reported s ++ [percent loaded total]) (promise s)
      else s
  | Load status responseText parsed =>
      if (200 <=? status) && (status <? 300) then
        match parsed with
        | Some data => settle (Bridge.Fulfilled data) s
        | None => settle (Bridge.Rejected parse_failed) s
        end
      else settle (Bridge.Rejected (upload_failed status responseText)) s
  | NetworkError => settle (Bridge.Rejected network_error) s
  | Timeout => settle (Bridge.Rejected timed_out) s
  end.

Definition run (progressCallback : value) (s : state) (evs : list xhr_event)
  : state :=
  fold_left (step progressCallback) evs s.

(** One upload: the events of the request, then the [timeout] event that
    [xhr.timeout = REQUEST_TIMEOUT] guarantees when nothing else ended it. *)
Definition uploadWithProgress
  (evs : list xhr_event) (progressCallback : value) : state :=
  run progressCallback initial (evs ++ [Timeout]).

(** What an event asks the promise for, if anything. *)
Definition verdict (ev : xhr_event) : option Bridge.promise_state :=
  match ev with
  | Progress _ _ _ => None
  | Load status responseText parsed =>
      Some (if (200 <=? status) && (status <? 300) then
              match parsed with
              | Some data => Bridge.Fulfilled data
              | None => Bridge.Rejected parse_failed
              end
            else Bridge.Rejected (upload_failed status responseText))
  | NetworkError => Some (Bridge.Rejected network_error)
  | Timeout => Some (Bridge.Rejected timed_out)
  end.

(** The verdict of the first event that has one. *)
Fixpoint first_verdict (evs : list xhr_event) : option Bridge.promise_state :=
  match evs with
  | [] => None
  | ev :: rest =>
      match verdict ev with
      | Some p => Some p
      | None => first_verdict rest
      end
  end.

(** The percentages of the progress events that can be computed. *)
Fixpoint computable_percents (evs : list xhr_event) : list Num.number :=
  match evs with
  | [] => []
  | Progress true loaded total :: rest =>
      percent loaded total :: computable_percents rest
  | _ :: rest => computable_percents rest
  end.

End Upload.

(** The request of one [sendToModel] call through [XMLHttpRequest]: its events
    and how long it takes. *)
Record xhr_session : Type := XhrSession {
  xhr_events : list Upload.xhr_event;
  xhr_ms : N
}.

Definition await_upload (session : xhr_session) (progressCallback : value)
  : M value :=
  fun _ w =>
    let w' := World (now w + Z.of_N (xhr_ms session)) (attempts w)
                    (injections w) (fetches w) (sleeps w) (trace w) in
    match Upload.promise
            (Upload.uploadWithProgress (xhr_events session) progressCallback)
    with
    | Bridge.Fulfilled data => (Ok data, w')
    | Bridge.Rejected e => (Throw e, w')
    | Bridge.Pending => (Throw Upload.timed_out, w')
    end.

Definition invalid_format : exn := Error "Invalid response format from API".

(** [sendToModel(file, progressCallback)]. The multipart body is identified by
    the file's name; [session] scripts the [XMLHttpRequest] used when a
    progress callback is given. *)
Definition sendToModel
  (session : xhr_session) (file progressCallback : value) : M value :=
  if nullish file then throw no_properties   (* file.name *)
  else
    body <- ask (fun E => to_string E (get file "name")) ;;
    emit (EvSetTimeout REQUEST_TIMEOUT) ;;;
    try_catch
      (if truthy progressCallback then
         data <- await_upload session progressCallback ;;
         if negb (truthy (validateResponse data)) then throw invalid_format
         else ret data
       else
         resp <- fetch "POST" API_ENDPOINT "cors" (Some body) ;;
         if negb (ok resp) then
           throw (Error ("API request failed (" ++ show_Z (status resp)
                         ++ "): " ++ text_or_empty resp))
         else
           data <- json resp ;;
           if negb (truthy (validateResponse data)) then throw invalid_format
           else ret data)
      (fun err =>
         if String.eqb (exn_name err) "AbortError"
         then throw (Error "Request timed out")
         else if String.eqb (exn_name err) "TypeError"
         then throw (Error "Network error")
         else throw err).

(** ** File validation ([validateFile]) *)

Record file_info : Type := FileInfo {
  file_name : string;
  file_size : Z;       (* bytes *)
  file_type : string   (* MIME type *)
}.

Record validation : Type := Validation {
  valid : bool;
  errors : list string
}.

(** [name.split(".").pop()]: what follows the last dot, the whole name when
    there is none; [cur] is the segment read so far. *)
Fixpoint last_segment (s cur : string) : string :=
  match s with
  | EmptyString => cur
  | String c rest =>
      if Ascii.eqb c "."
      then last_segment rest EmptyString
      else last_segment rest (cur ++ String c EmptyString)
  end.

(** [s.replace(pattern, replacement)] with a string pattern: the first
    occurrence only. *)
Fixpoint replace_first (s pattern replacement : string) : string :=
  if String.prefix pattern s then
    replacement
    ++ substring (String.length pattern)
                 (String.length s - String.length pattern) s
  else
    match s with
    | String c rest => String c (replace_first rest pattern replacement)
    | EmptyString => EmptyString
    end.

Definition fileExtension (E : env) (file : file_info) : string :=
  "." ++ toLowerCase E (last_segment (file_name file) EmptyString).

(** The callback of [allowedTypes.some]. *)
Definition type_matches (E : env) (file : file_info) (type : string) : bool :=
  if String.prefix "." type then String.eqb (fileExtension E file) type
  else String.eqb (file_type file) type
       || String.prefix (replace_first type "/*" "") (file_type file).

Definition size_error
  (formatFileSize : Z -> string) (file : file_info) (maxSize : Z) : string :=
  "File size (" ++ formatFileSize (file_size file)
  ++ ") exceeds maximum allowed size (" ++ formatFileSize maxSize ++ ")".

Definition type_error (allowedTypes : list string) : string :=
  "File type not supported. Accepted formats: "
  ++ String.concat ", " allowedTypes.

(** [validateFile(file, allowedTypes, maxSize)]; [formatFileSize], which only
    words the size message, is left abstract. *)
Definition validateFile
  (formatFileSize : Z -> string) (E : env)
  (file : file_info) (allowedTypes : list string) (maxSize : Z) : validation :=
  let result :=
    if maxSize <? file_size file
    then Validation false [size_error formatFileSize file maxSize]
    else Validation true [] in
  let isValidType := existsb (type_matches E file) allowedTypes in
  if negb isValidType
  then Validation false (errors result ++ [type_error allowedTypes])
  else result.

(** ** Form handling ([handleFormSubmit]) *)

Definition required : list string :=
  [ "object_id"; "transit_depth"; "orbital_period"; "transit_duration";
    "snr"; "planet_radius"; "semi_major_axis"; "eq_temperature";
    "impact_parameter"; "stellar_radius"; "stellar_mass"; "stellar_temp";
    "stellar_magnitude" ].

(** [data[k] = v] on an object created as [{}], for a string [v]: the key
    [__proto__] is the setter of [Object.prototype], which ignores a string
    and creates no property; any other key becomes or stays an own
    property. *)
Definition assign (props : list (string * value)) (k : string) (v : string)
  : list (string * value) :=
  if String.eqb k "__proto__" then props else define props k (VStr v).

(** [for (const [k, v] of fd.entries()) data[k] = v], the entries of the form
    being strings. The properties are listed in the order of their
    creation. *)
Definition collect (entries : list (string * string)) : list (string * value) :=
  fold_left (fun props kv => assign props (fst kv) (snd kv)) entries [].

Definition form_object (entries : list (string * string)) : value :=
  VObj (collect entries).

(** [v !== 0]. *)
Definition is_not_zero (v : value) : bool :=
  match v with VNum n => negb (PrimFloat.eqb n 0) | _ => true end.

(** [required.filter((f) => !data[f] && data[f] !== 0)]. *)
Definition missing_fields (data : value) : list string :=
  filter (fun f => negb (truthy (get data f)) && is_not_zero (get data f))
         required.

Inductive submission : Type :=
| Ignored                     (* a submission is being processed *)
| Refused (message : string)  (* the alert shown *)
| Accepted (data : value).    (* [currentFormData = data; processData(data)] *)

Definition handleFormSubmit
  (processingInProgress : bool) (entries : list (string * string))
  : submission :=
  if processingInProgress then Ignored
  else
    let data := form_object entries in
    let missing := missing_fields data in
    if (0 <? List.length missing)%nat
    then Refused ("Please fill required fields: " ++ String.concat ", " missing)
    else Accepted data.

(** The value the form holds for [key]: that of its last entry. *)
Fixpoint last_entry (key : string) (entries : list (string * string))
  : option string :=
  match entries with
  | [] => None
  | (k, v) :: rest =>
      match last_entry key rest with
      | Some later_value => Some later_value
      | None => if String.eqb k key then Some v else None
      end
  end.

(** ** The waiting indicator ([startWaitingUI], [updateWaitingText],
    [stopWaitingUI]) *)

Module WaitingUI.

(** The elements [initElements] found ([false]: [getElementById] gave [null]),
    what they show, and the running [setInterval] closures, each with its
    identifier and its own [pct]. *)
Record page : Type := Page {
  has_section : bool;        (* processingSection *)
  has_bar : bool;            (* progressBar *)
  has_percentage : bool;     (* progressPercentage *)
  has_text : bool;           (* progressText *)
  display : string;          (* processingSection.style.display *)
  bar_width : string;        (* progressBar.style.width *)
  percentage : string;       (* progressPercentage.textContent *)
  text : string;             (* progressText.textContent *)
  timers : list (nat * Z);   (* running intervals: identifier, pct *)
  next_timer : nat;          (* the identifier setInterval gives next *)
  animInterval : option nat  (* processingSection._animInterval *)
}.

Definition with_display (d : string) (p : page) : page :=
  Page (has_section p) (has_bar p) (has_percentage p) (has_text p) d
       (bar_width p) (percentage p) (text p) (timers p) (next_timer p)
       (animInterval p).

Definition with_bar (wd : string) (p : page) : page :=
  Page (has_section p) (has_bar p) (has_percentage p) (has_text p) (display p)
       wd (percentage p) (text p) (timers p) (next_timer p) (animInterval p).

Definition with_percentage (s : string) (p : page) : page :=
  Page (has_section p) (has_bar p) (has_percentage p) (has_text p) (display p)
       (bar_width p) s (text p) (timers p) (next_timer p) (animInterval p).

Definition with_text (s : string) (p : page) : page :=
  Page (has_section p) (has_bar p) (has_percentage p) (has_text p) (display p)
       (bar_width p) (percentage p) s (timers p) (next_timer p)
       (animInterval p).

Definition with_timers
  (ts : list (nat * Z)) (next : nat) (anim : option nat) (p : page) : page :=
  Page (has_section p) (has_bar p) (has_percentage p) (has_text p) (display p)
       (bar_width p) (percentage p) (text p) ts next anim.

(** [startWaitingUI()]: [Some e] is the [TypeError] of writing to a missing
    element. *)
Definition startWaitingUI (p : page) : option exn * page :=
  if negb (has_section p) then (None, p)
  else
    let p1 := with_display "block" p in
    if negb (has_bar p1) then (Some no_properties, p1)
    else
      let p2 := with_bar "0%" p1 in
      if negb (has_percentage p2) then (Some no_properties, p2)
      else
        let p3 := with_percentage "0%" p2 in
        if negb (has_text p3) then (Some no_properties, p3)
        else
          let p4 := with_text "Waiting for server response..." p3 in
          let id := next_timer p4 in
          (None, with_timers (timers p4 ++ [(id, 5)]) (S id) (Some id) p4).

(** One firing of the interval [id]: [pct = (pct + 7) % 95] and the two
    elements updated; nothing when the interval has been cleared. *)
Fixpoint advance (id : nat) (ts : list (nat * Z)) : list (nat * Z) * option Z :=
  match ts with
  | [] => ([], None)
  | (i, pct) :: rest =>
      if Nat.eqb i id then
        let pct' := (pct + 7) mod 95 in
        ((i, pct') :: rest, Some pct')
      else
        let '(rest', shown) := advance id rest in
        ((i, pct) :: rest', shown)
  end.

Definition tick (id : nat) (p : page) : page :=
  match advance id (timers p) with
  | (ts, Some pct) =>
      let p1 := with_timers ts (next_timer p) (animInterval p) p in
      if negb (has_bar p1) then p1
      else
        let p2 := with_bar (show_Z pct ++ "%") p1 in
        if negb (has_percentage p2) then p2
        else with_percentage (show_Z pct ++ "%") p2
  | (_, None) => p
  end.

Definition updateWaitingText (s : string) (p : page) : page :=
  if has_text p then with_text s p else p.

Definition clearInterval (id : nat) (ts : list (nat * Z)) : list (nat * Z) :=
  filter (fun t => negb (Nat.eqb (fst t) id)) ts.

Definition stopWaitingUI (p : page) : page :=
  if negb (has_section p) then p
  else
    let p1 := with_display "none" p in
    match animInterval p1 with
    | Some (S n) =>
        with_timers (clearInterval (S n) (timers p1)) (next_timer p1) None p1
    | Some O | None => p1   (* a falsy [_animInterval] *)
    end.

(** What the page does to the indicator. *)
Inductive action : Type :=
| Start
| Stop
| Tick (id : nat)
| Say (s : string).

Definition perform (p : page) (a : action) : page :=
  match a with
  | Start => snd (startWaitingUI p)
  | Stop => stopWaitingUI p
  | Tick id => tick id p
  | Say s => updateWaitingText s p
  end.

(** A page that holds every element of the indicator, on which no interval
    runs, and whose next interval identifier is positive, as the identifiers
    of [setInterval] are. *)
Definition idle (p : page) : Prop :=
  has_section p = true /\ has_bar p = true /\ has_percentage p = true
  /\ has_text p = true
  /\ timers p = [] /\ animInterval p = None /\ (0 < next_timer p)%nat.

(** Every running interval holds a percentage below 95. *)
Definition all_below_95 (ts : list (nat * Z)) : Prop :=
  forall id pct, In (id, pct) ts -> 0 <= pct < 95.

Definition below_95 (p : page) : Prop := all_below_95 (timers p).

End WaitingUI.

(** ** The earlier [js/api.js]: direct transport only *)

Module Earlier.

Definition get_placeholders : list string := ["YOUR_GET_DEPLOY_ID"].

Definition get_not_configured : exn :=
  Error "GOOGLE_SHEETS_GET_ENDPOINT не настроен (в api.js).".

Definition fetchServerResponse (cfg : config) (object_id : string) : M value :=
  let endpoint := GOOGLE_SHEETS_GET_ENDPOINT cfg in
  if unconfigured endpoint get_placeholders then throw get_not_configured
  else
    t <- Date_now ;;
    url <- ask (fun E => direct_url E endpoint object_id t) ;;
    res <- fetch "GET" url "cors" None ;;
    if negb (ok res) then
      throw (Error ("GET failed (" ++ show_Z (status res) ++ "): "
                    ++ text_or_empty res))
    else
      data <- json res ;;
      ret data.

End Earlier.

(** ** Further notions used by the statements *)

Definition answered_ok (reply : fetch_outcome) : bool :=
  match reply with Responded r => ok r | NetworkFailure _ => false end.

Definition was_sent (reply : fetch_outcome) : bool :=
  match reply with Responded _ => true | NetworkFailure _ => false end.

(** The payload and the body of the POSTs of [logToGoogleSheets] entered in
    [w]. *)
Definition log_payload (formData : value) (E : env) (w : world) : value :=
  spread_with formData "timestamp" (VStr (toISOString E (now w))).

Definition log_body (formData : value) (E : env) (w : world) : string :=
  JSON_stringify E (log_payload formData E w).

Definition network_events (w : world) : list event :=
  filter is_network (trace w).

(** A property name made of decimal digits only. Such names may be array
    indices, which an object enumerates first and in numeric order; every
    other string name is enumerated in the order of creation. *)
Fixpoint all_digits (s : string) : bool :=
  match s with
  | String c rest =>
      match Num.digit_of c with Some _ => all_digits rest | None => false end
  | EmptyString => true
  end.

Definition digits_only (s : string) : bool :=
  negb (String.eqb s "") && all_digits s.

(** What the [catch] block of [sendToModel] throws for [err]. *)
Definition rethrown (err : exn) : exn :=
  if String.eqb (exn_name err) "AbortError" then Error "Request timed out"
  else if String.eqb (exn_name err) "TypeError" then Error "Network error"
  else err.

(** A form field without a value: no entry, or a last entry that is empty. *)
Definition unfilled (entries : list (string * string)) (field : string) : bool :=
  match last_entry field entries with
  | Some v => String.eqb v ""
  | None => true
  end.

(** A text of the form [n%] with [0 <= n < 95]. *)
Definition shows_below_95 (s : string) : Prop :=
  exists n, 0 <= n < 95 /\ s = show_Z n ++ "%".

(** The indicator neither holds nor shows a percentage of 95 or more. *)
Definition indicator_ok (p : WaitingUI.page) : Prop :=
  WaitingUI.below_95 p
  /\ shows_below_95 (WaitingUI.bar_width p)
  /\ shows_below_95 (WaitingUI.percentage p).

(** [100] as a specified float. *)
Definition SF_hundred : spec_float := Eval vm_compute in Prim2SF 100%float.

(** More fixtures: a model API that answers with a valid result, an upload
    without events, a file. *)
Definition model_answer : value :=
  VObj [("probability", VNum 0.8%float); ("summary", VStr "likely");
        ("data_comments", VArr [])].

Definition model_online : env :=
  test_env (fun _ => [])
           (fun _ => Responded (Response 200 (Some "{...}") (Some model_answer))).

Definition silent_upload : xhr_session := XhrSession [] 0.

Definition light_curve : value := VObj [("name", VStr "toi700.csv")].

Definition full_page : WaitingUI.page :=
  WaitingUI.Page true true true true "none" "0%" "0%" "" [] 1 None.

(** A form with every required field filled, one of them twice. *)
Definition complete_entries : list (string * string) :=
  ("snr", "") :: ("object_id", "TOI-700")
  :: map (fun f => (f, "12.5")) (tl required).

(** * Facts about binary64 comparisons *)

Section FloatFacts.

#[local] Open Scope float_scope.

Lemma SFcompare_refl x : x <> S754_nan -> SFcompare x x = Some Eq.
Proof.
  destruct x as [s|s| |s m e]; intros H; try congruence;
    destruct s; simpl; try reflexivity;
    rewrite Z.compare_refl, Pos.compare_cont_refl; reflexivity.
Qed.

Lemma SFcompare_swap x y :
  SFcompare y x = option_map CompOpp (SFcompare x y).
Proof.
  destruct x as [s|s| |s m e], y as [s'|s'| |s' m' e'];
    try destruct s; try destruct s'; try reflexivity.
  all: cbn [SFcompare option_map]; f_equal;
    rewrite (Z.compare_antisym e e');
    destruct (e ?= e')%Z; cbn [CompOpp]; try reflexivity;
    change (Pos.compare_cont Eq m' m) with (Pos.compare m' m);
    change (Pos.compare_cont Eq m m') with (Pos.compare m m');
    rewrite (Pos.compare_antisym m m'); rewrite ?CompOpp_involutive;
    reflexivity.
Qed.

Lemma is_nan_SF x :
  PrimFloat.is_nan x = match Prim2SF x with S754_nan => true | _ => false end.
Proof.
  unfold PrimFloat.is_nan. rewrite eqb_spec. unfold SFeqb.
  destruct (Prim2SF x) eqn:Hx; try reflexivity;
    rewrite SFcompare_refl; try reflexivity; discriminate.
Qed.

Lemma is_zero_SF x :
  PrimFloat.is_zero x = match Prim2SF x with S754_zero _ => true | _ => false end.
Proof.
  unfold PrimFloat.is_zero. rewrite eqb_spec. unfold SFeqb.
  change (Prim2SF zero) with (S754_zero false).
  destruct (Prim2SF x) as [s|s| |s m e]; try destruct s; reflexivity.
Qed.

(** [Math.min(1, x)] and [Math.max(0, m)] in closed form. *)
Lemma Math_min_1 x :
  Num.Math_min [1; x] =
  if PrimFloat.is_nan x then nan else if x <? 1 then x else 1.
Proof.
  unfold Num.Math_min. cbn [Num.min_from].
  change (PrimFloat.is_nan 1) with false.
  change (1 <? infinity) with true.
  change (Num.is_pos_zero 1) with false.
  rewrite ?andb_false_r; cbn [andb]. reflexivity.
Qed.

Lemma Math_max_0 m :
  Num.Math_max [0; m] =
  if PrimFloat.is_nan m then nan else if 0 <? m then m else 0.
Proof.
  unfold Num.Math_max. cbn [Num.max_from].
  change (PrimFloat.is_nan 0) with false.
  change (neg_infinity <? 0) with true.
  change (Num.is_neg_zero 0) with false.
  rewrite ?andb_false_r; cbn [andb]. reflexivity.
Qed.

Ltac sf_simpl :=
  cbn [SFcompare option_map CompOpp SF_one negb] in *.

Ltac float_consts :=
  change (PrimFloat.is_nan 1) with false;
  change (PrimFloat.is_nan 0) with false;
  change (PrimFloat.is_nan nan) with true;
  change (0 <? 1) with true; change (0 <? 0) with false;
  change (1 =? 1) with true; change (0 =? 0) with true;
  cbn [orb andb]; rewrite ?orb_true_r.

(** Nesting [Math.max(0, Math.min(1, x))] is the clamp of [x] to the unit
    interval, up to the sign of a zero result and with [NaN] kept. *)
Lemma unit_clamp x :
  Num.SameValueZero (Num.Math_max [0; Num.Math_min [1; x]]) (clamp x 0 1)
  = true.
Proof.
  rewrite Math_max_0, Math_min_1. unfold clamp, Num.SameValueZero.
  pose proof (is_nan_SF x) as Hn.
  pose proof (ltb_spec x 1) as Hx1. pose proof (ltb_spec 1 x) as H1x.
  pose proof (ltb_spec x 0) as Hx0. pose proof (ltb_spec 0 x) as H0x.
  pose proof (eqb_spec x x) as Hxx.
  pose proof (eqb_spec 1 x) as He1. pose proof (eqb_spec 0 x) as He0.
  unfold SFltb, SFeqb in *.
  rewrite (SFcompare_swap (Prim2SF x) (Prim2SF 1)) in H1x, He1.
  rewrite (SFcompare_swap (Prim2SF x) (Prim2SF 0)) in H0x, He0.
  change (Prim2SF 0) with (S754_zero false) in *.
  change (Prim2SF 1) with SF_one in *.
  destruct (Prim2SF x) as [s|s| |s m e].
  4: { rewrite SFcompare_refl in Hxx by discriminate.
       destruct s.
       - sf_simpl. rewrite Hn, Hx1, Hx0, Hn, H0x. float_consts. reflexivity.
       - assert (Hs : exists c,
                    SFcompare (S754_finite false m e) SF_one = Some c)
           by (cbn [SFcompare SF_one]; eauto).
         destruct Hs as [c Hc]; rewrite Hc in *. sf_simpl.
         rewrite Hn, Hx0.
         destruct c; sf_simpl; rewrite ?Hx1, ?H1x, ?Hn, ?H0x, ?Hxx, ?He1;
           float_consts; rewrite ?Hn, ?H0x, ?Hxx, ?He1; reflexivity. }
  all: try destruct s; sf_simpl; rewrite ?Hn, ?Hx1, ?Hx0, ?H1x;
    float_consts; rewrite ?Hn, ?H0x, ?H1x, ?Hxx, ?He0; float_consts;
    try reflexivity.
Qed.

Lemma Some_eq {A} (a b : A) : Some a = Some b -> a = b.
Proof. intros H. injection H as H. exact H. Qed.

Lemma compare_one_eq m e :
  SFcompare (S754_finite false m e) SF_one = Some Eq ->
  S754_finite false m e = SF_one.
Proof.
  cbn [SFcompare SF_one]. intros H. apply Some_eq in H.
  destruct (Z.compare_spec e (-52)) as [He|He|He];
    [|exfalso; clear -H; congruence|exfalso; clear -H; congruence].
  apply Pos.compare_eq in H. rewrite H, He. reflexivity.
Qed.

Ltac sf_simpl_in Hn Hx1 H1x Hx0 H0x :=
  cbn [SFcompare option_map CompOpp SF_one negb] in Hn, Hx1, H1x, Hx0, H0x |- *.

(** The same, as an equality: the only difference is that the code turns a
    negative zero into [+0]. *)
Lemma unit_clamp_exact x :
  let q := Num.Math_max [0; Num.Math_min [1; x]] in
  q = clamp x 0 1 \/ (q = 0 /\ clamp x 0 1 = neg_zero).
Proof.
  cbv zeta. rewrite Math_max_0, Math_min_1. unfold clamp.
  pose proof (is_nan_SF x) as Hn.
  pose proof (ltb_spec x 1) as Hx1. pose proof (ltb_spec 1 x) as H1x.
  pose proof (ltb_spec x 0) as Hx0. pose proof (ltb_spec 0 x) as H0x.
  unfold SFltb in *.
  rewrite (SFcompare_swap (Prim2SF x) (Prim2SF 1)) in H1x.
  rewrite (SFcompare_swap (Prim2SF x) (Prim2SF 0)) in H0x.
  change (Prim2SF 0) with (S754_zero false) in *.
  change (Prim2SF 1) with SF_one in *.
  assert (Hx : x = SF2Prim (Prim2SF x)) by (symmetry; apply SF2Prim_Prim2SF).
  destruct (Prim2SF x) as [s|s| |s m e].
  4: { destruct s.
       - sf_simpl_in Hn Hx1 H1x Hx0 H0x. rewrite Hn, Hx1, Hx0, Hn, H0x.
         left; reflexivity.
       - assert (Hs : exists c,
                    SFcompare (S754_finite false m e) SF_one = Some c)
           by (cbn [SFcompare SF_one]; eauto).
         destruct Hs as [c Hc]. rewrite Hc in Hx1, H1x.
         sf_simpl_in Hn Hx1 H1x Hx0 H0x. rewrite Hn, Hx0.
         destruct c; sf_simpl_in Hn Hx1 H1x Hx0 H0x;
           rewrite ?Hx1, ?H1x, ?Hn, ?H0x; float_consts; rewrite ?Hn, ?H0x;
           try (left; reflexivity).
         apply compare_one_eq in Hc. rewrite Hc in Hx.
         left. rewrite Hx. reflexivity. }
  all: try destruct s; sf_simpl_in Hn Hx1 H1x Hx0 H0x;
    rewrite ?Hn, ?Hx1, ?Hx0, ?H1x; float_consts; rewrite ?Hn, ?H0x, ?H1x;
    float_consts; subst x;
    try (left; reflexivity); try (right; split; reflexivity).
Qed.

(** A truthy Number is not the whole number zero. *)
Lemma truthy_not_zero n : Num.truthy n = true -> Num.whole n <> Some 0%Z.
Proof.
  unfold Num.truthy, Num.whole. rewrite is_nan_SF, is_zero_SF.
  destruct (Prim2SF n) as [s|s| |s m e]; cbn [orb negb];
    try discriminate.
  intros _. destruct (0 <=? e)%Z eqn:He.
  - apply Z.leb_le in He. intros H; injection H as H.
    assert (0 < 2 ^ e)%Z by (apply Z.pow_pos_nonneg; lia).
    destruct s; nia.
  - destruct (Z.pos m mod 2 ^ (- e) =? 0)%Z eqn:Hm; [|discriminate].
    apply Z.eqb_eq in Hm. apply Z.leb_gt in He.
    intros H; injection H as H.
    assert (Hp : (0 < 2 ^ (- e))%Z) by (apply Z.pow_pos_nonneg; lia).
    pose proof (Z.div_mod (Z.pos m) (2 ^ (- e)) ltac:(lia)) as Hdm.
    destruct s.
    + pose proof (Z.div_mod (Z.neg m) (2 ^ (- e)) ltac:(lia)) as Hdn.
      rewrite H in Hdn.
      pose proof (Z.mod_pos_bound (Z.neg m) (2 ^ (- e)) Hp). lia.
    + rewrite H, Hm in Hdm. lia.
Qed.

End FloatFacts.

(** * The JSONP bridge settles once *)

Module BridgeFacts.
Import Bridge.

Lemma cleanup_idempotent b : cleanup (cleanup b) = cleanup b.
Proof. destruct b as [[] c t n p]; reflexivity. Qed.

Lemma cleanup_torn_down b : torn_down (cleanup b).
Proof. destruct b as [[] c t n p]; repeat split. Qed.

Lemma start_configured endpoint :
  endpoint <> "" -> start endpoint = State true true true 0 Pending.
Proof.
  intros H. unfold start.
  destruct (String.eqb_spec endpoint ""); [contradiction | reflexivity].
Qed.

(** The first event after the executor settles the promise with its own
    verdict and releases everything. *)
Lemma first_event_settles endpoint ev :
  endpoint <> "" ->
  step (start endpoint) ev = State false false false 1 (verdict ev).
Proof.
  intros H. rewrite (start_configured endpoint H).
  destruct ev; reflexivity.
Qed.

(** A settled, released bridge ignores every later event. *)
Lemma settled_is_final n p ev :
  p <> Pending ->
  step (State false false false n p) ev = State false false false n p.
Proof.
  intros Hp. destruct ev; cbn; try reflexivity.
  destruct p; [contradiction | reflexivity | reflexivity].
Qed.

Lemma settled_run n p evs :
  p <> Pending ->
  run (State false false false n p) evs = State false false false n p.
Proof.
  intros Hp. induction evs as [|ev evs IH]; [reflexivity|].
  unfold run in *. cbn [fold_left]. rewrite settled_is_final by assumption.
  exact IH.
Qed.

Lemma verdict_settled ev : verdict ev <> Pending.
Proof. destruct ev; discriminate. Qed.

Lemma verdict_three_way ev : three_way (verdict ev).
Proof.
  destruct ev; cbn; unfold three_way; [left; eauto | right; left | right; right];
    reflexivity.
Qed.

Lemma run_configured endpoint ev evs :
  endpoint <> "" ->
  run (start endpoint) (ev :: evs) = State false false false 1 (verdict ev).
Proof.
  intros H. unfold run. cbn [fold_left].
  rewrite first_event_settles by assumption.
  apply settled_run, verdict_settled.
Qed.

(** With an endpoint the bridge never stays pending. *)
Lemma outcome_configured endpoint evs :
  endpoint <> "" ->
  outcome endpoint evs = verdict (hd TimerElapsed (evs ++ [TimerElapsed])).
Proof.
  intros H. unfold outcome.
  destruct evs as [|ev evs]; cbn [app hd]; rewrite run_configured by assumption;
    reflexivity.
Qed.

(** C2, as stated, fails: with an empty endpoint the executor rejects with a
    configuration error before anything is created, which is none of the
    three settlements of the contract. *)
Lemma bridge_unconfigured_is_fourth_outcome :
  ~ (forall endpoint evs, three_way (outcome endpoint evs)).
Proof.
  intros H. specialize (H "" []).
  change (outcome "" []) with (Rejected not_configured) in H.
  destruct H as [[data H] | [H | H]]; discriminate.
Qed.

(** C2 (amended). For every invocation with a non-empty endpoint and every
    sequence of events the page delivers (callback invocations, the timer
    elapsing, load errors, in any order and number), followed by the timer
    queue reaching the guard: the promise is settled by the first event alone
    (fulfilled with the payload, rejected for the timeout or rejected for the
    load error), that same event removes the script (once), deletes the
    callback and clears the timer, a further cleanup changes nothing, and no
    later event changes the state; that settlement is what
    [fetchServerResponseJSONP] resolves or rejects with. With an empty
    endpoint the invocation rejects with the configuration error and creates
    nothing. *)
Theorem bridge_settles_once endpoint evs :
  endpoint <> "" ->
  let first := hd TimerElapsed (evs ++ [TimerElapsed]) in
  let final := run (start endpoint) (evs ++ [TimerElapsed]) in
  final = step (start endpoint) first
  /\ promise final = verdict first
  /\ three_way (promise final)
  /\ torn_down final /\ removals final = 1%nat
  /\ cleanup final = final
  /\ (forall more, run final more = final)
  /\ (forall cfg object_id timeoutMs E w,
         GOOGLE_SHEETS_GET_ENDPOINT cfg = endpoint ->
         script_events E (injections w) = evs ->
         fst (fetchServerResponseJSONP cfg object_id timeoutMs E w) =
         match verdict first with
         | Fulfilled data => Ok data
         | Rejected e => Throw e
         | Pending => Throw timed_out
         end)
  /\ start "" = State false false false 0 (Rejected not_configured).
Proof.
  intros H first final.
  assert (Hfinal : final = State false false false 1 (verdict first)).
  { subst first final. destruct evs as [|ev evs]; cbn [app hd];
      apply run_configured; assumption. }
  rewrite Hfinal. rewrite first_event_settles by assumption.
  repeat split.
  - apply verdict_three_way.
  - intros more. apply settled_run, verdict_settled.
  - intros cfg object_id timeoutMs E w Hcfg Hevs.
    unfold fetchServerResponseJSONP. rewrite Hcfg, Hevs.
    apply String.eqb_neq in H. rewrite H.
    apply String.eqb_neq in H.
    rewrite (outcome_configured endpoint evs H). fold first.
    destruct (verdict first); reflexivity.
Qed.

(** The race of the callback and the timeout, in both orders. *)
Example race_callback_first :
  run (start "https://example.org/exec")
      [ScriptCalls pending_response; TimerElapsed]
  = State false false false 1 (Fulfilled pending_response).
Proof. reflexivity. Qed.

Example race_timer_first :
  run (start "https://example.org/exec")
      [TimerElapsed; ScriptCalls pending_response]
  = State false false false 1 (Rejected timed_out).
Proof. reflexivity. Qed.

(** Without an endpoint the bridge rejects before it touches the page. *)
Example bridge_unconfigured_rejects object_id timeoutMs E w :
  fetchServerResponseJSONP placeholder_config object_id timeoutMs E w
  = (Throw not_configured, w).
Proof. reflexivity. Qed.

Lemma bridge_settles_once_witness :
  promise (run (start "https://example.org/exec")
               ([TimerElapsed; ScriptCalls pending_response; ScriptError]
                ++ [TimerElapsed]))
  = Rejected timed_out
  /\ removals (run (start "https://example.org/exec")
                   ([TimerElapsed; ScriptCalls pending_response; ScriptError]
                    ++ [TimerElapsed]))
     = 1%nat.
Proof.
  pose proof (bridge_settles_once "https://example.org/exec"
                [TimerElapsed; ScriptCalls pending_response; ScriptError]
                ltac:(discriminate)) as H.
  cbv zeta in H. destruct H as (_ & Hp & _ & _ & Hr & _).
  split; [exact Hp | exact Hr].
Defined.

End BridgeFacts.

(** * The response fetcher *)

Section Fetcher.

Variable cfg : config.
Variable object_id : string.
Variable E : env.

Let endpoint := GOOGLE_SHEETS_GET_ENDPOINT cfg.

Lemma unconfigured_nonempty ep markers :
  unconfigured ep markers = false -> ep <> "".
Proof.
  unfold unconfigured. intros H ->. discriminate.
Qed.

Lemma unconfigured_intro ep markers :
  ep = "" \/ (exists m, In m markers /\ includes ep m = true) ->
  unconfigured ep markers = true.
Proof.
  unfold unconfigured. intros [-> | (m & Hin & Hm)]; [reflexivity|].
  apply orb_true_iff; right. apply existsb_exists. eauto.
Qed.

Lemma fetchServerResponse_unconfigured w :
  unconfigured endpoint get_placeholders = true ->
  fetchServerResponse cfg object_id E w = (Throw get_not_configured, entered w).
Proof.
  intros H. unfold fetchServerResponse, bind, count_attempt.
  fold endpoint. rewrite H. reflexivity.
Qed.

(** One call with a configured endpoint, case by case. *)
Lemma fetchServerResponse_configured w :
  unconfigured endpoint get_placeholders = false ->
  fetchServerResponse cfg object_id E w =
  match Bridge.outcome endpoint (script_events E (injections w)) with
  | Bridge.Fulfilled data => (Ok data, after_bridge cfg object_id E w)
  | Bridge.Rejected e =>
      (direct_result (fetch_reply E (fetches w)),
       after_fallback cfg object_id E w e)
  | Bridge.Pending =>
      (direct_result (fetch_reply E (fetches w)),
       after_fallback cfg object_id E w Bridge.timed_out)
  end.
Proof.
  intros H. pose proof (unconfigured_nonempty _ _ H) as Hne.
  apply String.eqb_neq in Hne.
  unfold fetchServerResponse, bind, count_attempt, try_catch,
    fetchServerResponseJSONP.
  fold endpoint. rewrite H. cbn [now attempts injections fetches sleeps trace].
  rewrite Hne.
  destruct (Bridge.outcome endpoint (script_events E (injections w)))
    as [|data|e]; cbn; try reflexivity.
  all: unfold after_fallback, after_bridge, direct_result, fetch, json, ret, throw;
    cbn; fold endpoint;
    destruct (fetch_reply E (fetches w)) as [e'|r]; cbn; try reflexivity;
    destruct (ok r); cbn; try reflexivity;
    destruct (body_json r); reflexivity.
Qed.

Lemma bridge_never_pending evs :
  endpoint <> "" -> Bridge.outcome endpoint evs <> Bridge.Pending.
Proof.
  intros H. rewrite BridgeFacts.outcome_configured by assumption.
  apply BridgeFacts.verdict_settled.
Qed.

Lemma query_url_bridge cb t :
  bridge_url E endpoint object_id cb t =
  query_url endpoint (if includes endpoint "?" then "&" else "?")
            (encodeURIComponent E object_id) (Some cb) t.
Proof. reflexivity. Qed.

Lemma query_url_direct t :
  direct_url E endpoint object_id t =
  query_url endpoint "?" (encodeURIComponent E object_id) None t.
Proof. reflexivity. Qed.

End Fetcher.

Lemma append_cancel (p a b : string) : p ++ a = p ++ b -> a = b.
Proof.
  induction p as [|c p IH]; cbn [append]; intros H; [exact H|].
  injection H as H. apply IH. exact H.
Qed.




(** C8. An empty GET endpoint, or one that contains a GET placeholder marker,
    makes the response fetcher throw the configuration error at once; an empty
    POST endpoint, or one that contains a POST placeholder marker, makes the
    submission logger return [false] at once; neither injects a script nor
    calls [fetch]. *)
Theorem unconfigured_endpoints_short_circuit cfg object_id formData E w :
  let get_ep := GOOGLE_SHEETS_GET_ENDPOINT cfg in
  let post_ep := GOOGLE_SHEETS_ENDPOINT cfg in
  let fetched := fetchServerResponse cfg object_id E w in
  let logged := logToGoogleSheets cfg formData E w in
  (get_ep = "" \/
   (exists m, In m get_placeholders /\ includes get_ep m = true) ->
   fst fetched = Throw get_not_configured
   /\ trace (snd fetched) = trace w
   /\ injections (snd fetched) = injections w
   /\ fetches (snd fetched) = fetches w)
  /\
  (post_ep = "" \/
   (exists m, In m post_placeholders /\ includes post_ep m = true) ->
   fst logged = Ok false
   /\ count is_network (trace (snd logged)) = count is_network (trace w)
   /\ injections (snd logged) = injections w
   /\ fetches (snd logged) = fetches w).
Proof.
  intros get_ep post_ep fetched logged. split; intros H.
  - apply unconfigured_intro in H. subst fetched.
    rewrite fetchServerResponse_unconfigured by exact H.
    repeat split.
  - apply unconfigured_intro in H. subst logged.
    unfold logToGoogleSheets. fold post_ep. rewrite H.
    unfold bind, console, emit, ret, count. cbn [fst snd trace injections fetches].
    rewrite filter_app. cbn. rewrite app_nil_r. repeat split.
Qed.

Lemma unconfigured_endpoints_short_circuit_witness :
  fst (fetchServerResponse placeholder_config "TOI-700" offline
         (initial_world 0))
  = Throw get_not_configured
  /\ fst (logToGoogleSheets placeholder_config (VObj []) offline
            (initial_world 0))
     = Ok false.
Proof.
  destruct (unconfigured_endpoints_short_circuit placeholder_config
              "TOI-700" (VObj [])
              offline (initial_world 0)) as [Hget Hpost].
  split.
  - apply Hget. left. reflexivity.
  - apply Hpost. right. exists "YOUR_POST_DEPLOY_ID". split.
    + left. reflexivity.
    + reflexivity.
Defined.

(** * The poll loop *)

Lemma later_refl w : later w w.
Proof.
  unfold later. repeat split; try lia. exists []. symmetry. apply app_nil_r.
Qed.

Lemma later_trans w1 w2 w3 : later w1 w2 -> later w2 w3 -> later w1 w3.
Proof.
  intros (Hn & Ha & Hs & l & Hl) (Hn' & Ha' & Hs' & l' & Hl').
  unfold later. repeat split; try lia.
  exists (l ++ l')%list. rewrite Hl', Hl. symmetry. apply app_assoc.
Qed.

Lemma later_record w l : later w (record w l).
Proof.
  unfold later, record. cbn. repeat split; try lia. exists l. reflexivity.
Qed.

Lemma count_app p l1 l2 : count p (l1 ++ l2) = (count p l1 + count p l2)%nat.
Proof. unfold count. rewrite filter_app. apply length_app. Qed.

Lemma later_count p w w' :
  later w w' -> (count p (trace w) <= count p (trace w'))%nat.
Proof.
  intros (_ & _ & _ & l & Hl). rewrite Hl, count_app. lia.
Qed.

Lemma timer_delay_nonneg ms : 0 <= timer_delay ms.
Proof. unfold timer_delay. lia. Qed.

(** Within the range of a signed 32-bit integer the timer keeps the delay it
    is asked for. *)
Lemma timer_delay_exact ms : 0 <= ms < 2 ^ 31 -> timer_delay ms = ms.
Proof.
  intros H. unfold timer_delay, to_int32.
  rewrite Z.mod_small by lia. lia.
Qed.

Lemma bridge_ms_nonneg E k timeoutMs : 0 <= bridge_ms E k timeoutMs.
Proof.
  unfold bridge_ms. pose proof (timer_delay_nonneg timeoutMs).
  destruct (hd _ _); lia.
Qed.

Section Poll.

Variable cfg : config.
Variable object_id : string.
Variables onPending onError : handler.
Variable E : env.

Lemma on_response_spec data w :
  returns onPending E ->
  on_response onPending data E w =
  (Ok (if has_numeric_procent data then Some data else None),
   record w ((if has_pending_marker data then [EvOnPending onPending] else [])
             ++ (if has_numeric_procent data then []
                 else [EvOnPending onPending]))).
Proof.
  intros Hr. unfold on_response, has_numeric_procent, has_pending_marker.
  destruct w as [t a i f s tr].
  destruct (truthy data && is_string (get data "status") "pending");
    destruct (truthy data && String.eqb (typeof (get data "procent")) "number");
    unfold bind, call, ret, record; rewrite ?Hr; cbn;
    rewrite ?Hr, <- ?app_assoc, ?app_nil_r; reflexivity.
Qed.

(** The rest of the [try] block in general: each call of [onPending] returns
    or throws. *)
Lemma on_response_cases data w :
  on_response onPending data E w =
  if has_pending_marker data then
    match raised onPending E w with
    | Some e => (Throw e, record w [EvOnPending onPending])
    | None =>
        if has_numeric_procent data
        then (Ok (Some data), record w [EvOnPending onPending])
        else
          (match raised onPending E (record w [EvOnPending onPending]) with
           | Some e => Throw e
           | None => Ok None
           end,
           record w [EvOnPending onPending; EvOnPending onPending])
    end
  else if has_numeric_procent data then (Ok (Some data), w)
  else
    (match raised onPending E w with Some e => Throw e | None => Ok None end,
     record w [EvOnPending onPending]).
Proof.
  unfold on_response, has_numeric_procent, has_pending_marker.
  destruct (truthy data && is_string (get data "status") "pending");
    destruct (truthy data && String.eqb (typeof (get data "procent")) "number");
    unfold bind, call, ret; cbn [fst snd];
    try destruct (raised onPending E w); cbn [fst snd];
    try destruct (raised onPending E (record w [EvOnPending onPending]));
    unfold record; cbn [now attempts injections fetches sleeps trace];
    rewrite <- ?app_assoc; reflexivity.
Qed.

Lemma on_failure_spec e w :
  returns onError E ->
  on_failure onError e E w =
  (Ok None,
   record w [EvOnError onError e;
             EvConsole "warn" "pollServerResponse attempt error, will retry:"
                       (describe e)]).
Proof.
  intros Hr. unfold on_failure, bind, call, console, emit, ret, record.
  rewrite Hr. cbn. rewrite <- app_assoc. reflexivity.
Qed.

(** The [catch] block in general: [onError] is called with the error; when it
    returns the warning is logged and the iteration falls through to the
    sleep, when it throws that leaves the loop. *)
Lemma on_failure_cases e w :
  on_failure onError e E w =
  match raised onError E w with
  | None =>
      (Ok None,
       record w [EvOnError onError e;
                 EvConsole "warn"
                   "pollServerResponse attempt error, will retry:"
                   (describe e)])
  | Some e' => (Throw e', record w [EvOnError onError e])
  end.
Proof.
  unfold on_failure, bind, call, console, emit, ret, record.
  destruct (raised onError E w); cbn; rewrite <- ?app_assoc; reflexivity.
Qed.

Lemma fetch_later w :
  let w1 := snd (fetchServerResponse cfg object_id E w) in
  later w w1 /\ attempts w1 = S (attempts w) /\ sleeps w1 = sleeps w.
Proof.
  cbv zeta.
  destruct (unconfigured (GOOGLE_SHEETS_GET_ENDPOINT cfg) get_placeholders)
    eqn:Hc.
  - rewrite fetchServerResponse_unconfigured by exact Hc.
    unfold later, entered. cbn. repeat split; try lia.
    exists []. symmetry. apply app_nil_r.
  - rewrite fetchServerResponse_configured by exact Hc.
    pose proof (bridge_ms_nonneg E (injections w) 15000) as Hb.
    destruct (Bridge.outcome _ _); unfold later, after_fallback, after_bridge;
      cbn; repeat split; try lia; rewrite <- ?app_assoc; eexists; reflexivity.
Qed.

(** The fetcher calls no callback. *)
Lemma fetch_silent w :
  count is_on_pending (trace (snd (fetchServerResponse cfg object_id E w)))
  = count is_on_pending (trace w).
Proof.
  destruct (unconfigured (GOOGLE_SHEETS_GET_ENDPOINT cfg) get_placeholders)
    eqn:Hc.
  - rewrite fetchServerResponse_unconfigured by exact Hc. reflexivity.
  - rewrite fetchServerResponse_configured by exact Hc.
    destruct (Bridge.outcome _ _); unfold after_fallback, after_bridge;
      cbn [snd trace]; rewrite !count_app; cbn; lia.
Qed.

Lemma poll_attempt_spec w :
  poll_attempt cfg object_id onPending onError E w =
  match fetchServerResponse cfg object_id E w with
  | (Ok data, w1) =>
      match on_response onPending data E w1 with
      | (Ok o, w2) => (Ok o, w2)
      | (Throw e, w2) => on_failure onError e E w2
      end
  | (Throw e, w1) => on_failure onError e E w1
  end.
Proof.
  unfold poll_attempt, try_catch, bind.
  destruct (fetchServerResponse cfg object_id E w) as [[data|e] w1];
    [|reflexivity].
  destruct (on_response onPending data E w1) as [[o|e] w2]; reflexivity.
Qed.

(** Beyond the call of the fetcher an attempt only calls the callbacks and
    logs: it adds notices to the trace and changes nothing else. *)
Lemma attempt_records w :
  exists l,
    snd (poll_attempt cfg object_id onPending onError E w)
    = record (snd (fetchServerResponse cfg object_id E w)) l
    /\ Forall (fun ev => is_notice ev = true) l.
Proof.
  rewrite poll_attempt_spec.
  destruct (fetchServerResponse cfg object_id E w) as [[data|e] w1];
    cbn [snd].
  - unfold on_response, bind, call, ret.
    destruct (truthy data && is_string (get data "status") "pending");
      [destruct (raised onPending E w1)|];
      cbn [fst snd];
      try (rewrite on_failure_cases;
           match goal with
           | |- context [raised onError E ?x] => destruct (raised onError E x)
           end);
      destruct (truthy data
                && String.eqb (typeof (get data "procent")) "number");
      cbn [fst snd];
      try match goal with
          | |- context [raised onPending E ?x] =>
              destruct (raised onPending E x)
          end;
      cbn [fst snd];
      try (rewrite on_failure_cases;
           match goal with
           | |- context [raised onError E ?x] => destruct (raised onError E x)
           end);
      cbn [fst snd]; unfold record; cbn [now attempts injections fetches
                                           sleeps trace];
      rewrite <- ?app_assoc;
      (eexists; split; [reflexivity | repeat constructor]) ||
      (exists []; split; [rewrite app_nil_r; destruct w1; reflexivity
                         | constructor]).
  - rewrite on_failure_cases. destruct (raised onError E w1); cbn [snd];
      eexists; (split; [reflexivity | repeat constructor]).
Qed.

(** Whatever its result, an attempt is one call of the fetcher and no
    sleep. *)
Lemma attempt_later w :
  let w1 := snd (poll_attempt cfg object_id onPending onError E w) in
  later w w1 /\ attempts w1 = S (attempts w) /\ sleeps w1 = sleeps w.
Proof.
  cbv zeta. destruct (attempt_records w) as (l & -> & _).
  pose proof (fetch_later w) as (Hl & Ha & Hs). cbv zeta in Hl, Ha, Hs.
  split; [eapply later_trans; [exact Hl | apply later_record]|].
  split; assumption.
Qed.

(** What an attempt throws was thrown by [onError]. *)
Lemma attempt_throws w e w1 :
  poll_attempt cfg object_id onPending onError E w = (Throw e, w1) ->
  exists w0, raised onError E w0 = Some e.
Proof.
  rewrite poll_attempt_spec.
  destruct (fetchServerResponse cfg object_id E w) as [[data|e0] w0].
  - destruct (on_response onPending data E w0) as [[o|e1] w2];
      [discriminate|].
    rewrite on_failure_cases. destruct (raised onError E w2) eqn:Hr;
      [|discriminate].
    intros H. injection H as <- _. eauto.
  - rewrite on_failure_cases. destruct (raised onError E w0) eqn:Hr;
      [|discriminate].
    intros H. injection H as <- _. eauto.
Qed.

(** What an attempt returns has a numeric [procent]. *)
Lemma attempt_returns w data w1 :
  poll_attempt cfg object_id onPending onError E w = (Ok (Some data), w1) ->
  has_numeric_procent data = true.
Proof.
  rewrite poll_attempt_spec.
  destruct (fetchServerResponse cfg object_id E w) as [[d|e0] w0].
  - unfold on_response, bind, call, ret, has_numeric_procent.
    destruct (truthy d && is_string (get d "status") "pending");
      [destruct (raised onPending E w0)|]; cbn [fst snd];
      try (rewrite on_failure_cases;
           match goal with
           | |- context [raised onError E ?x] => destruct (raised onError E x)
           end; discriminate);
      (destruct (truthy d && String.eqb (typeof (get d "procent")) "number")
         eqn:Hn;
       [intros H; injection H as <- _; exact Hn|]);
      match goal with
      | |- context [raised onPending E ?x] => destruct (raised onPending E x)
      end; cbn [fst snd];
      try (rewrite on_failure_cases;
           match goal with
           | |- context [raised onError E ?x] => destruct (raised onError E x)
           end); discriminate.
  - rewrite on_failure_cases. destruct (raised onError E w0); discriminate.
Qed.

(** With callbacks that return an attempt never throws. *)
Lemma poll_attempt_ok w :
  returns onPending E -> returns onError E ->
  exists o w1,
    poll_attempt cfg object_id onPending onError E w = (Ok o, w1)
    /\ later w w1 /\ attempts w1 = S (attempts w) /\ sleeps w1 = sleeps w.
Proof.
  intros Hp He. pose proof (attempt_later w) as Hl. cbv zeta in Hl.
  rewrite poll_attempt_spec in *.
  destruct (fetchServerResponse cfg object_id E w) as [[data|e] w1].
  - rewrite on_response_spec in * by exact Hp. eauto.
  - rewrite on_failure_spec in * by exact He. eauto.
Qed.

Lemma sleep_later interval w :
  let w2 := snd (sleep interval E w) in
  later w w2 /\ now w + timer_delay interval <= now w2
  /\ attempts w2 = attempts w /\ sleeps w2 = S (sleeps w).
Proof.
  pose proof (timer_delay_nonneg interval).
  unfold sleep, later. cbn. repeat split; try lia. eexists; reflexivity.
Qed.

Variables interval timeout start : Z.

Notation loop fuel :=
  (poll_loop fuel cfg object_id interval timeout onPending onError start E).

Lemma poll_loop_step fuel w :
  now w - start < timeout ->
  loop (S fuel) w =
  match poll_attempt cfg object_id onPending onError E w with
  | (Ok (Some data), w1) => Some (Ok data, w1)
  | (Ok None, w1) => loop fuel (snd (sleep interval E w1))
  | (Throw e, w1) => Some (Throw e, w1)
  end.
Proof.
  intros H. apply Z.ltb_lt in H. cbn [poll_loop]. rewrite H. reflexivity.
Qed.

Lemma poll_loop_expired fuel w :
  timeout <= now w - start -> loop fuel w = Some (Throw poll_timed_out, w).
Proof.
  intros H. apply Z.ltb_ge in H. destruct fuel; cbn [poll_loop]; rewrite H;
    reflexivity.
Qed.

(** The loop leaves by [return data], by the timeout error once the time is
    up, or by what [onError] threw. *)
Lemma poll_loop_exits fuel : forall w r w',
  loop fuel w = Some (r, w') ->
  later w w'
  /\ match r with
     | Ok data => has_numeric_procent data = true
     | Throw e =>
         (e = poll_timed_out /\ timeout <= now w' - start)
         \/ exists w0, raised onError E w0 = Some e
     end.
Proof.
  induction fuel as [|fuel IH]; intros w r w' H.
  - cbn [poll_loop] in H. destruct (now w - start <? timeout) eqn:Hc;
      [discriminate|]. injection H as <- <-. apply Z.ltb_ge in Hc.
    split; [apply later_refl | left; split; [reflexivity | exact Hc]].
  - destruct (Z.lt_ge_cases (now w - start) timeout) as [Hc|Hc].
    + rewrite poll_loop_step in H by exact Hc.
      pose proof (attempt_later w) as (Hl & _). cbv zeta in Hl.
      destruct (poll_attempt cfg object_id onPending onError E w)
        as [[[data|]|e] w1] eqn:Hp; cbn [snd] in Hl.
      * injection H as <- <-. split; [exact Hl|].
        eapply attempt_returns. exact Hp.
      * apply IH in H. destruct H as [Hl' Hr]. split; [|exact Hr].
        eapply later_trans; [exact Hl|].
        eapply later_trans; [|exact Hl']. apply sleep_later.
      * injection H as <- <-. split; [exact Hl|]. right.
        eapply attempt_throws. exact Hp.
    + rewrite poll_loop_expired in H by exact Hc. injection H as <- <-.
      split; [apply later_refl | left; split; [reflexivity | exact Hc]].
Qed.

(** More fuel does not change a result. *)
Lemma poll_loop_fuel_mono fuel : forall w r extra,
  loop fuel w = Some r -> loop (fuel + extra) w = Some r.
Proof.
  induction fuel as [|fuel IH]; intros w r extra H.
  - cbn [poll_loop] in H. destruct (now w - start <? timeout) eqn:Hc;
      [discriminate|]. apply Z.ltb_ge in Hc.
    rewrite poll_loop_expired by exact Hc. exact H.
  - destruct (Z.lt_ge_cases (now w - start) timeout) as [Hc|Hc].
    + cbn [Nat.add]. rewrite poll_loop_step in * by exact Hc.
      destruct (poll_attempt cfg object_id onPending onError E w)
        as [[[data|]|e] w1]; try exact H.
      apply IH. exact H.
    + rewrite poll_loop_expired in * by exact Hc. exact H.
Qed.

(** When the timer keeps a positive delay the loop ends: [fuel] iterations
    are enough as soon as [fuel] delays cover what is left of the timeout,
    and at most [fuel] calls of the fetcher are made. *)
Lemma poll_loop_terminates fuel : forall w,
  0 < timer_delay interval ->
  timeout - (now w - start) <= Z.of_nat fuel * timer_delay interval ->
  exists r w',
    loop fuel w = Some (r, w')
    /\ (attempts w' <= attempts w + fuel)%nat.
Proof.
  induction fuel as [|fuel IH]; intros w Hi Hleft.
  - rewrite poll_loop_expired by lia. do 2 eexists. split; [reflexivity | lia].
  - destruct (Z.lt_ge_cases (now w - start) timeout) as [Hc|Hc].
    + rewrite poll_loop_step by exact Hc.
      pose proof (attempt_later w) as ((Hn & _) & Ha & _).
      cbv zeta in Hn, Ha.
      destruct (poll_attempt cfg object_id onPending onError E w)
        as [[[data|]|e] w1]; cbn [snd] in Hn, Ha.
      * do 2 eexists. split; [reflexivity | lia].
      * pose proof (sleep_later interval w1) as (_ & Hs & Ha2 & _).
        cbv zeta in Hs, Ha2.
        destruct (IH (snd (sleep interval E w1)) Hi) as (r & w' & Hr & Hb);
          [nia|].
        exists r, w'. split; [exact Hr | lia].
      * do 2 eexists. split; [reflexivity | lia].
    + rewrite poll_loop_expired by exact Hc. do 2 eexists.
      split; [reflexivity | lia].
Qed.

End Poll.

(** ** Completion test of the loop (C1) *)

(** C1, as stated, fails in both directions: a response whose terminal field
    is spelled [percent] carries a finite percent but is not returned (the loop
    goes on waiting), and a response whose [procent] is [Infinity] is returned
    although it carries no finite number. *)
Lemma complete_iff_finite_percent_fails :
  ~ (fst (on_response Noop spelled_percent offline (initial_world 0))
     = Ok (Some spelled_percent)
     <-> carries_finite_percent spelled_percent = true)
  /\ ~ (fst (on_response Noop infinite_procent offline (initial_world 0))
        = Ok (Some infinite_procent)
        <-> carries_finite_percent infinite_procent = true).
Proof.
  split.
  - intros [_ H]. specialize (H eq_refl). discriminate H.
  - intros [H _]. specialize (H eq_refl). discriminate H.
Qed.

(** C1 (amended). When the loop condition holds and the fetch of an iteration
    answers [data], the loop returns [data] at once, without sleeping or
    fetching again, if and only if [data] is truthy and [typeof data.procent]
    is ["number"] (any Number, [NaN] and the infinities included; the spelling
    [percent] is not looked at); otherwise it notifies [onPending], sleeps and
    goes on, whatever [data.status] says. This is so for every [onPending]
    that returns. In general [data] is returned if and only if it has a
    numeric [procent] and the call of [onPending] for a pending marker, if it
    has one, returns; what [onPending] throws is handled as the error of the
    iteration. *)
Theorem poll_returns_iff_numeric_procent
  fuel cfg object_id interval timeout onPending onError start E w data w1 :
  now w - start < timeout ->
  fetchServerResponse cfg object_id E w = (Ok data, w1) ->
  let answered := on_response onPending data E w1 in
  let loop fuel :=
    poll_loop fuel cfg object_id interval timeout onPending onError start E in
  (returns onPending E ->
   (fst answered = Ok (Some data) <-> has_numeric_procent data = true)
   /\ (has_numeric_procent data = false -> fst answered = Ok None)
   /\ loop (S fuel) w
      = if has_numeric_procent data
        then Some (Ok data, snd answered)
        else loop fuel (snd (sleep interval E (snd answered))))
  /\ (fst answered = Ok (Some data)
      <-> has_numeric_procent data = true
          /\ (has_pending_marker data = true -> raised onPending E w1 = None))
  /\ loop (S fuel) w
     = match fst answered with
       | Ok (Some returned) => Some (Ok returned, snd answered)
       | Ok None => loop fuel (snd (sleep interval E (snd answered)))
       | Throw e =>
           match on_failure onError e E (snd answered) with
           | (Ok _, w2) => loop fuel (snd (sleep interval E w2))
           | (Throw thrown, w2) => Some (Throw thrown, w2)
           end
       end.
Proof.
  intros Hc Hf answered loop. subst answered loop. cbv beta.
  split; [|split].
  - intros Hr. rewrite poll_loop_step by exact Hc.
    rewrite poll_attempt_spec, Hf, on_response_spec by exact Hr.
    cbn [fst snd].
    destruct (has_numeric_procent data).
    + repeat split; try reflexivity; discriminate.
    + repeat split; try reflexivity; discriminate.
  - rewrite on_response_cases.
    destruct (has_pending_marker data), (has_numeric_procent data);
      try destruct (raised onPending E w1) eqn:Hr1; cbn [fst];
      try destruct (raised onPending E
                      (record w1 [EvOnPending onPending]));
      split;
      try (intros H; discriminate H);
      try (intros [H _]; discriminate H);
      try (intros [_ H]; specialize (H eq_refl); discriminate H);
      try (intros _; split; [reflexivity | intros H; try reflexivity;
                                           discriminate H]);
      try (intros _; reflexivity).
  - rewrite poll_loop_step by exact Hc. rewrite poll_attempt_spec, Hf.
    destruct (on_response onPending data E w1) as [[[returned|]|e] w2];
      cbn [fst snd]; try reflexivity.
    rewrite on_failure_cases.
    destruct (raised onError E w2); reflexivity.
Qed.

(** The result arrives on the second call: the loop resolves with that exact
    object on call 2. *)
Lemma poll_returns_iff_numeric_procent_witness :
  exists w',
    poll_loop 2 shipped_config "TOI-700" 10 50 Noop Noop 0
              second_call_completes
              (snd (sleep 10 second_call_completes
                      (snd (poll_attempt shipped_config "TOI-700" Noop Noop
                              second_call_completes (initial_world 0)))))
    = Some (Ok toi_700_result, w')
    /\ attempts w' = 2%nat.
Proof.
  eexists.
  pose proof (poll_returns_iff_numeric_procent 1 shipped_config "TOI-700"
                10 50 Noop Noop 0 second_call_completes
                (snd (sleep 10 second_call_completes
                      (snd (poll_attempt shipped_config "TOI-700" Noop Noop
                              second_call_completes (initial_world 0)))))
                toi_700_result _ ltac:(vm_compute; reflexivity) eq_refl)
    as (H & _).
  destruct (H (fun _ => eq_refl)) as (_ & _ & H').
  split; [exact H' | reflexivity].
Defined.

(** ** Errors and the timeout (C4) *)




(** ** Pending notifications (C5) *)

Lemma count_record p w l :
  count p (trace (record w l)) = (count p (trace w) + count p l)%nat.
Proof. unfold record. cbn [trace]. apply count_app. Qed.

(** How many times one answered iteration calls [onPending]. *)
Lemma pending_notifications onPending data E w :
  returns onPending E ->
  count is_on_pending (trace (snd (on_response onPending data E w))) =
  (count is_on_pending (trace w)
   + (if has_pending_marker data then 1 else 0)
   + (if has_numeric_procent data then 0 else 1))%nat.
Proof.
  intros Hr.
  rewrite on_response_spec by exact Hr. cbn [snd].
  rewrite count_record, count_app.
  destruct (has_pending_marker data), (has_numeric_procent data);
    cbn; lia.
Qed.

(** C5 at the failing input: for the answer [{status: "pending"}] one
    iteration calls [onPending] twice, once for the marker and once more on
    the way to the sleep; for an answer with neither marker nor numeric
    [procent] it calls it once. This is so for every [onPending] that
    returns; in general the second call is made exactly when the first one
    returns. *)
Theorem explicit_pending_notifies_twice onPending E w :
  (returns onPending E ->
   snd (on_response onPending pending_response E w)
   = record w [EvOnPending onPending; EvOnPending onPending]
   /\ snd (on_response onPending (VObj []) E w)
      = record w [EvOnPending onPending])
  /\ snd (on_response onPending pending_response E w)
     = record w (EvOnPending onPending
                 :: match raised onPending E w with
                    | None => [EvOnPending onPending]
                    | Some _ => []
                    end)
  /\ snd (on_response onPending (VObj []) E w)
     = record w [EvOnPending onPending].
Proof.
  split; [|split].
  - intros Hr. rewrite !on_response_spec by exact Hr. split; reflexivity.
  - rewrite on_response_cases.
    change (has_pending_marker pending_response) with true.
    change (has_numeric_procent pending_response) with false.
    cbv iota. destruct (raised onPending E w); reflexivity.
  - rewrite on_response_cases. reflexivity.
Qed.

Lemma explicit_pending_notifies_twice_witness :
  trace (snd (on_response on_pending_listener pending_response always_pending
                (initial_world 0)))
  = [EvOnPending on_pending_listener; EvOnPending on_pending_listener].
Proof.
  rewrite (proj1 (proj1 (explicit_pending_notifies_twice on_pending_listener
                           always_pending (initial_world 0))
                    (fun _ => eq_refl))).
  reflexivity.
Defined.

(** ** Number of attempts before the timeout (C6) *)

Lemma ceil_div_covers t i : 0 < i -> 0 <= t -> t <= ceil_div t i * i /\ 0 <= ceil_div t i.
Proof.
  intros Hi Ht. unfold ceil_div.
  pose proof (Z.div_mod (t + i - 1) i ltac:(lia)) as Hdm.
  pose proof (Z.mod_pos_bound (t + i - 1) i Hi) as Hb.
  split; [nia|]. apply Z.div_pos; lia.
Qed.

Section AlwaysPending.

Variable cfg : config.
Variable object_id : string.
Variables onPending onError : handler.
Variable E : env.

Hypothesis fetcher_pending :
  forall w, fst (fetchServerResponse cfg object_id E w) = Ok pending_response.

Hypothesis pending_returns : returns onPending E.

Lemma attempt_pending w :
  poll_attempt cfg object_id onPending onError E w
  = (Ok None,
     record (snd (fetchServerResponse cfg object_id E w))
            [EvOnPending onPending; EvOnPending onPending]).
Proof.
  rewrite poll_attempt_spec.
  pose proof (fetcher_pending w) as Hp.
  destruct (fetchServerResponse cfg object_id E w) as [r w1].
  cbn [fst snd] in *. subst r.
  rewrite on_response_spec by exact pending_returns. reflexivity.
Qed.

Lemma pending_never_returns interval timeout start fuel : forall w r w',
  poll_loop fuel cfg object_id interval timeout onPending onError start E w
  = Some (r, w') ->
  r = Throw poll_timed_out.
Proof.
  induction fuel as [|fuel IH]; intros w r w' H.
  - cbn [poll_loop] in H. destruct (now w - start <? timeout);
      [discriminate | congruence].
  - destruct (Z.lt_ge_cases (now w - start) timeout) as [Hc|Hc].
    + rewrite poll_loop_step in H by exact Hc.
      rewrite attempt_pending in H. eapply IH. exact H.
    + rewrite poll_loop_expired in H by exact Hc. congruence.
Qed.

(** The fetcher answers at once and timers are exact. *)
Hypothesis fetcher_instant :
  forall w, now (snd (fetchServerResponse cfg object_id E w)) = now w.

Hypothesis timers_exact : forall k, timer_lag E k = 0%N.

(** One iteration: one attempt, two notifications, and the clock moves on by
    the delay. *)
Lemma pending_round interval timeout start fuel w :
  now w - start < timeout ->
  exists w2,
    poll_loop (S fuel) cfg object_id interval timeout onPending onError
              start E w
    = poll_loop fuel cfg object_id interval timeout onPending onError
                start E w2
    /\ now w2 = now w + timer_delay interval
    /\ attempts w2 = S (attempts w)
    /\ count is_on_pending (trace w2)
       = (count is_on_pending (trace w) + 2)%nat.
Proof.
  intros Hc. rewrite poll_loop_step by exact Hc. rewrite attempt_pending.
  eexists. split; [reflexivity|].
  pose proof (fetch_later cfg object_id E w) as (_ & Ha & _).
  pose proof (fetch_silent cfg object_id E w) as Hq.
  pose proof (fetcher_instant w) as Hn. cbv zeta in Ha.
  unfold sleep, record.
  cbn [snd now attempts injections fetches sleeps trace].
  rewrite timers_exact, Hn, Ha. split; [lia|]. split; [reflexivity|].
  rewrite <- app_assoc, !count_app, Hq. cbn. lia.
Qed.

End AlwaysPending.

Lemma scenario_unfold fuel cfg object_id f g E w :
  pollServerResponse fuel cfg object_id (scenario_options f g) E w =
  match poll_loop fuel cfg object_id 10 50 (handler_of f) (handler_of g)
                  (now w) E w with
  | Some r => Done r
  | None => OutOfFuel
  end.
Proof. reflexivity. Qed.




(** ** Defaults of the options (C9) *)

Lemma truthy_whole_nonzero v : truthy v = true -> whole_ms v <> Some 0.
Proof.
  destruct v; cbn [whole_ms truthy]; try discriminate.
  apply truthy_not_zero.
Qed.



(** ** Probability shown for a server response (C7) *)

(** C7. For a server response that carries the Number [p] as [procent], the
    probability [processData] shows is [clamp(p / 100, 0, 1)]: the very same
    binary64 value, except that for [p / 100 = -0] the code shows [+0] (the
    same Number for [===] and SameValueZero); [NaN] stays [NaN]; [p = 130]
    gives [1] and [p = -10] gives [0]. *)
Theorem probability_is_clamped_percent E serverResp p :
  truthy serverResp = true ->
  get serverResp "procent" = VNum p ->
  exists q,
    probability_shown E serverResp = Some q
    /\ (q = clamp (p / 100)%float 0%float 1%float
        \/ (q = 0%float
            /\ clamp (p / 100)%float 0%float 1%float = PrimFloat.neg_zero))
    /\ Num.SameValueZero q (clamp (p / 100)%float 0%float 1%float) = true
    /\ (p = 130%float -> q = 1%float)
    /\ (p = (-10)%float -> q = 0%float).
Proof.
  intros Ht Hp. unfold probability_shown, processData_results.
  rewrite Ht, Hp. cbn [typeof String.eqb andb number_of get lookup].
  change (String.eqb "number" "number") with true. cbn iota.
  cbn [get lookup String.eqb number_of]. eexists. split; [reflexivity|].
  split; [apply unit_clamp_exact|].
  split; [apply unit_clamp|].
  split; intros ->; reflexivity.
Qed.

Lemma probability_is_clamped_percent_witness :
  probability_shown offline (VObj [("procent", VNum 130%float)])
  = Some 1%float.
Proof.
  destruct (probability_is_clamped_percent offline
              (VObj [("procent", VNum 130%float)]) 130%float
              eq_refl eq_refl) as (q & Hq & _ & _ & H130 & _).
  rewrite Hq, (H130 eq_refl). reflexivity.
Defined.

(** The one input where the value shown is not bit for bit the clamp: a
    [procent] of [-0]. *)
Example negative_zero_percent :
  probability_shown offline (VObj [("procent", VNum PrimFloat.neg_zero)])
  = Some 0%float
  /\ clamp (PrimFloat.neg_zero / 100)%float 0%float 1%float
     = PrimFloat.neg_zero.
Proof. split; reflexivity. Qed.

(** ** The local estimator (C10) *)

(** C10 at the failing input: a form whose signal-to-noise ratio is ["-100"]
    gets the probability [-1.05], which [validateResponse] rejects. *)
Theorem mockInfer_negative_snr E w :
  exists results w',
    mockInfer negative_snr_form E w = (Ok results, w')
    /\ get results "probability" = VNum (-1.05)%float
    /\ validateResponse results = VBool false.
Proof.
  unfold mockInfer. unfold bind at 1. cbv beta iota.
  generalize (Num.to_Z (1000 + Math_random E (sleeps w) * 2000)%float).
  intros delay. unfold sleep. generalize (timer_delay delay). intros kept.
  vm_compute.
  do 2 eexists. split; [reflexivity|]. split; reflexivity.
Qed.

(** The estimator on a strong signal: [snr = 20], [transit_depth = 10000]
    give the probability [0.9], and the result is valid. *)
Example mockInfer_strong_signal E w :
  exists results w',
    mockInfer strong_signal_form E w = (Ok results, w')
    /\ get results "probability" = VNum 0.9%float
    /\ validateResponse results = VBool true.
Proof.
  unfold mockInfer. unfold bind at 1. cbv beta iota.
  generalize (Num.to_Z (1000 + Math_random E (sleeps w) * 2000)%float).
  intros delay. unfold sleep. generalize (timer_delay delay). intros kept.
  vm_compute.
  do 2 eexists. split; [reflexivity|]. split; reflexivity.
Qed.

(** Missing and non-numeric fields fall back to [snr = 10] and
    [transit_depth = 5000]: probability [0.6]. *)
Example mockInfer_missing_fields E w :
  exists results w',
    mockInfer (VObj [("snr", VStr "n/a")]) E w = (Ok results, w')
    /\ get results "probability" = VNum 0.6%float
    /\ validateResponse results = VBool true.
Proof.
  unfold mockInfer. unfold bind at 1. cbv beta iota.
  generalize (Num.to_Z (1000 + Math_random E (sleeps w) * 2000)%float).
  intros delay. unfold sleep. generalize (timer_delay delay). intros kept.
  vm_compute.
  do 2 eexists. split; [reflexivity|]. split; reflexivity.
Qed.

(** * The rest of [js/api.js] and of the page scripts *)

(** ** The submission logger *)

Lemma lookup_define props k v key :
  lookup key (define props k v)
  = if String.eqb k key then Some v else lookup key props.
Proof.
  induction props as [|[k' v'] props IH]; cbn [define lookup].
  - reflexivity.
  - destruct (String.eqb_spec k' k) as [->|Hk]; cbn [lookup].
    + destruct (String.eqb k key); reflexivity.
    + rewrite IH. destruct (String.eqb_spec k' key) as [->|Hk'].
      * destruct (String.eqb_spec k key) as [->|]; [contradiction|reflexivity].
      * reflexivity.
Qed.

Lemma define_keys props k v :
  map fst (define props k v)
  = (map fst props
     ++ if existsb (fun k' => String.eqb k' k) (map fst props) then []
        else [k])%list.
Proof.
  induction props as [|[k' v'] props IH]; cbn [define map fst existsb app].
  - reflexivity.
  - destruct (String.eqb k' k); cbn [orb map fst app].
    + rewrite app_nil_r. reflexivity.
    + rewrite IH. reflexivity.
Qed.

(** The logger never throws. It answers [true] exactly when the endpoint is
    configured and either the readable POST was answered with a success
    status or the no-cors POST could be sent; it calls [fetch] once in the
    first case, twice otherwise, and never when unconfigured. *)
Theorem logger_outcome cfg formData E w :
  let endpoint := GOOGLE_SHEETS_ENDPOINT cfg in
  let logged := logToGoogleSheets cfg formData E w in
  let first := fetch_reply E (fetches w) in
  let second := fetch_reply E (S (fetches w)) in
  fst logged
  = Ok (negb (unconfigured endpoint post_placeholders)
        && (answered_ok first || was_sent second))
  /\ fetches (snd logged)
     = (fetches w
        + if unconfigured endpoint post_placeholders then 0
          else if answered_ok first then 1 else 2)%nat
  /\ injections (snd logged) = injections w.
Proof.
  cbv zeta. unfold logToGoogleSheets.
  destruct (unconfigured (GOOGLE_SHEETS_ENDPOINT cfg) post_placeholders).
  - cbn. repeat split. lia.
  - unfold bind, try_catch, fetch, console, emit, ret, ask, Date_now,
      answered_ok, was_sent.
    cbn [now attempts injections fetches sleeps trace fst snd negb andb].
    destruct (fetch_reply E (fetches w)) as [e1|r1];
      [|destruct (ok r1)];
      cbn [now attempts injections fetches sleeps trace fst snd orb];
      try (repeat split; lia);
      destruct (fetch_reply E (S (fetches w))) as [e2|r2];
      cbn [now attempts injections fetches sleeps trace fst snd orb];
      repeat split; lia.
Qed.

(** Every request of the logger is a POST to the logging endpoint whose body
    is the JSON of the submitted fields plus [timestamp]; the readable POST
    comes first and the no-cors POST, when made, repeats the same body. In that
    payload [timestamp] is the ISO time of the call, also when the form has a
    field of that name, every other field is as submitted, and, no field
    name being made of digits only, the fields stand in the order of the
    form: a [timestamp] of the form keeps its place, a new one comes
    last. *)
Theorem logger_requests cfg props E w :
  let endpoint := GOOGLE_SHEETS_ENDPOINT cfg in
  let formData := VObj props in
  let logged := logToGoogleSheets cfg formData E w in
  let body := log_body formData E w in
  unconfigured endpoint post_placeholders = false ->
  network_events (snd logged)
  = (network_events w
     ++ EvFetch "POST" endpoint "cors" (Some body)
        :: if answered_ok (fetch_reply E (fetches w)) then []
           else [EvFetch "POST" endpoint "no-cors" (Some body)])%list
  /\ get (log_payload formData E w) "timestamp"
     = VStr (toISOString E (now w))
  /\ (forall key, key <> "timestamp" ->
      get (log_payload formData E w) key = get formData key)
  /\ (forallb (fun k => negb (digits_only k)) (map fst props) = true ->
      map fst (own_props (log_payload formData E w))
      = (map fst props
         ++ if existsb (fun k => String.eqb k "timestamp") (map fst props)
            then [] else ["timestamp"])%list).
Proof.
  cbv zeta. intros Hc. split; [|split; [|split]].
  - unfold logToGoogleSheets. rewrite Hc.
    unfold bind, try_catch, fetch, console, emit, ret, ask, Date_now,
      answered_ok, network_events, log_body, log_payload.
    cbn [now attempts injections fetches sleeps trace fst snd].
    destruct (fetch_reply E (fetches w)) as [e1|r1];
      [|destruct (ok r1)];
      cbn [now attempts injections fetches sleeps trace fst snd];
      try destruct (fetch_reply E (S (fetches w))) as [e2|r2];
      cbn [now attempts injections fetches sleeps trace fst snd];
      rewrite !filter_app; cbn [filter is_network];
      rewrite ?app_nil_r, <- ?app_assoc; reflexivity.
  - unfold log_payload, spread_with, own_props, get.
    rewrite lookup_define, String.eqb_refl. reflexivity.
  - intros key Hkey. unfold log_payload, spread_with, own_props, get.
    rewrite lookup_define.
    destruct (String.eqb_spec "timestamp" key); [congruence | reflexivity].
  - intros _. unfold log_payload, spread_with, own_props. apply define_keys.
Qed.

Lemma logger_requests_witness :
  get (log_payload (VObj [("timestamp", VStr "stale"); ("snr", VStr "20")])
                   offline (initial_world 0)) "timestamp"
  = VStr "1970-01-01T00:00:00.000Z"
  /\ network_events
       (snd (logToGoogleSheets shipped_config
               (VObj [("timestamp", VStr "stale"); ("snr", VStr "20")])
               offline (initial_world 0)))
     = [EvFetch "POST" (GOOGLE_SHEETS_ENDPOINT shipped_config) "cors"
                (Some "{}");
        EvFetch "POST" (GOOGLE_SHEETS_ENDPOINT shipped_config) "no-cors"
                (Some "{}")]
  /\ map fst (own_props
                (log_payload (VObj [("timestamp", VStr "stale");
                                    ("snr", VStr "20")])
                             offline (initial_world 0)))
     = ["timestamp"; "snr"].
Proof.
  destruct (logger_requests shipped_config
              [("timestamp", VStr "stale"); ("snr", VStr "20")]
              offline (initial_world 0) eq_refl)
    as (Hnet & Hstamp & _ & Hkeys).
  split; [exact Hstamp|]. split; [exact Hnet | exact (Hkeys eq_refl)].
Defined.

(** ** Placeholder markers and request URLs *)

Lemma prefix_app a b s :
  String.prefix (a ++ b) s = true -> String.prefix a s = true.
Proof.
  revert s. induction a as [|c a IH]; intros s H; [destruct s; reflexivity|].
  destruct s as [|c' s]; [discriminate|].
  cbn [append String.prefix] in *.
  destruct (ascii_dec c c'); [apply IH; exact H | discriminate].
Qed.

Lemma includes_app s a b :
  includes s (a ++ b) = true -> includes s a = true.
Proof.
  induction s as [|c s IH]; cbn [includes]; intros H.
  - rewrite orb_false_r in *. apply prefix_app in H. rewrite H. reflexivity.
  - apply orb_true_iff in H. apply orb_true_iff. destruct H as [H|H].
    + left. eapply prefix_app. exact H.
    + right. apply IH. exact H.
Qed.

Lemma earlier_guard_weaker endpoint :
  unconfigured endpoint get_placeholders = false ->
  unconfigured endpoint Earlier.get_placeholders = false.
Proof.
  unfold unconfigured, get_placeholders, Earlier.get_placeholders.
  cbn [existsb]. destruct (String.eqb endpoint ""); cbn [orb]; [discriminate|].
  destruct (includes endpoint "YOUR_GET_DEPLOY_ID"); [|reflexivity].
  rewrite ?orb_true_r. cbn [orb]. rewrite ?orb_true_r. discriminate.
Qed.

(** The marker [..._DEPLOY_ID_HERE] never decides a guard: an endpoint that
    contains it contains [..._DEPLOY_ID] as well, so the fetcher is unconfigured
    exactly when its endpoint is empty or contains [YOUR_GET_DEPLOY_ID] or
    [YOUR_GET_DEPLOY_URL], and likewise the logger. *)
Theorem here_marker_is_redundant endpoint :
  unconfigured endpoint get_placeholders
  = (String.eqb endpoint ""
     || includes endpoint "YOUR_GET_DEPLOY_ID"
     || includes endpoint "YOUR_GET_DEPLOY_URL")
  /\ unconfigured endpoint post_placeholders
     = (String.eqb endpoint ""
        || includes endpoint "YOUR_POST_DEPLOY_ID"
        || includes endpoint "YOUR_POST_DEPLOY_URL")
  /\ unconfigured endpoint get_placeholders
     = (unconfigured endpoint Earlier.get_placeholders
        || includes endpoint "YOUR_GET_DEPLOY_URL").
Proof.
  unfold unconfigured, get_placeholders, post_placeholders,
    Earlier.get_placeholders. cbn [existsb].
  pose proof (includes_app endpoint "YOUR_GET_DEPLOY_ID" "_HERE") as Hg.
  pose proof (includes_app endpoint "YOUR_POST_DEPLOY_ID" "_HERE") as Hp.
  cbn [append] in Hg, Hp.
  destruct (String.eqb endpoint ""); cbn [orb]; [repeat split|].
  destruct (includes endpoint "YOUR_GET_DEPLOY_ID");
    destruct (includes endpoint "YOUR_POST_DEPLOY_ID");
    destruct (includes endpoint "YOUR_GET_DEPLOY_ID_HERE");
    destruct (includes endpoint "YOUR_POST_DEPLOY_ID_HERE");
    cbn [orb]; rewrite ?orb_false_r; repeat split;
    try (specialize (Hg eq_refl); discriminate);
    try (specialize (Hp eq_refl); discriminate).
Qed.

(** The two transports build the same URL, callback parameter apart, only for
    an endpoint without a query string: the bridge then joins with ["?"] as
    the direct request always does; for an endpoint that already contains
    ["?"] the bridge joins with ["&"] and the direct request still with
    ["?"]. *)
Theorem transports_agree_without_query E endpoint object_id callbackName t :
  let encoded := encodeURIComponent E object_id in
  direct_url E endpoint object_id t = query_url endpoint "?" encoded None t
  /\ (includes endpoint "?" = false ->
      bridge_url E endpoint object_id callbackName t
      = query_url endpoint "?" encoded (Some callbackName) t)
  /\ (includes endpoint "?" = true ->
      bridge_url E endpoint object_id callbackName t
      = query_url endpoint "&" encoded (Some callbackName) t
      /\ direct_url E endpoint object_id t
         <> query_url endpoint "&" encoded None t).
Proof.
  cbv zeta. split; [reflexivity|]. split; intros H.
  - unfold bridge_url. rewrite H. reflexivity.
  - split; [unfold bridge_url; rewrite H; reflexivity|].
    unfold direct_url, query_url. intros Heq.
    apply append_cancel in Heq. discriminate Heq.
Qed.

Lemma transports_agree_without_query_witness :
  bridge_url offline "https://example.org/exec?lang=en" "TOI-700" "cb" 7
  = "https://example.org/exec?lang=en&object_id=TOI-700&callback=cb&ts=7"
  /\ direct_url offline "https://example.org/exec?lang=en" "TOI-700" 7
     = "https://example.org/exec?lang=en?object_id=TOI-700&ts=7"
  /\ bridge_url offline "https://example.org/exec" "TOI-700" "cb" 7
     = "https://example.org/exec?object_id=TOI-700&callback=cb&ts=7".
Proof.
  destruct (transports_agree_without_query offline
              "https://example.org/exec?lang=en" "TOI-700" "cb" 7)
    as (Hd & _ & Hq).
  destruct (transports_agree_without_query offline
              "https://example.org/exec" "TOI-700" "cb" 7)
    as (_ & Hn & _).
  split; [|split].
  - rewrite (proj1 (Hq eq_refl)). reflexivity.
  - rewrite Hd. reflexivity.
  - rewrite (Hn eq_refl). reflexivity.
Defined.

(** ** The earlier fetcher inside the current one *)

(** When the bridge fails, the current fetcher goes on exactly as the earlier
    one (direct transport only) would from there, after the warning on the
    console: the same request, the same result and the same errors. *)
Theorem fallback_is_earlier_fetcher cfg object_id E w e :
  let endpoint := GOOGLE_SHEETS_GET_ENDPOINT cfg in
  unconfigured endpoint get_placeholders = false ->
  Bridge.outcome endpoint (script_events E (injections w)) = Bridge.Rejected e ->
  fetchServerResponse cfg object_id E w
  = Earlier.fetchServerResponse cfg object_id E
      (record (after_bridge cfg object_id E w)
         [EvConsole "warn" "JSONP attempt failed, trying fetch() fallback:"
                    (describe e)]).
Proof.
  cbv zeta. intros Hc Hb.
  rewrite (fetchServerResponse_configured cfg object_id E w Hc), Hb.
  assert (He : unconfigured (GOOGLE_SHEETS_GET_ENDPOINT cfg)
                 Earlier.get_placeholders = false).
  { apply earlier_guard_weaker, Hc. }
  unfold Earlier.fetchServerResponse. rewrite He.
  unfold bind, Date_now, ask, fetch, json, ret, throw, direct_result,
    after_fallback, record.
  cbn [now attempts injections fetches sleeps trace fst snd after_bridge].
  destruct (fetch_reply E (fetches w)) as [e'|r]; [reflexivity|].
  destruct (ok r); cbn [negb]; [|reflexivity].
  destruct (body_json r); reflexivity.
Qed.

Lemma fallback_is_earlier_fetcher_witness :
  fst (fetchServerResponse shipped_config "TOI-700" offline (initial_world 0))
  = fst (Earlier.fetchServerResponse shipped_config "TOI-700" offline
           (record (after_bridge shipped_config "TOI-700" offline
                      (initial_world 0))
              [EvConsole "warn"
                 "JSONP attempt failed, trying fetch() fallback:"
                 "JSONP request timed out"])).
Proof.
  rewrite (fallback_is_earlier_fetcher shipped_config "TOI-700" offline
             (initial_world 0) Bridge.timed_out eq_refl eq_refl).
  reflexivity.
Defined.

(** ** Bookkeeping of the poll loop *)

Section PollBookkeeping.

Variable cfg : config.
Variable object_id : string.
Variables onPending onError : handler.
Variable E : env.

Let endpoint := GOOGLE_SHEETS_GET_ENDPOINT cfg.

Lemma notices_not_network l :
  Forall (fun ev => is_notice ev = true) l -> filter is_network l = [].
Proof.
  induction 1 as [|ev l Hev _ IH]; [reflexivity|].
  cbn [filter]. rewrite IH. destruct ev; try discriminate; reflexivity.
Qed.

(** What one call of the fetcher does to the counters. *)
Lemma fetch_counters w :
  let w1 := snd (fetchServerResponse cfg object_id E w) in
  if unconfigured endpoint get_placeholders
  then injections w1 = injections w /\ fetches w1 = fetches w
       /\ network_events w1 = network_events w
  else injections w1 = S (injections w)
       /\ (fetches w <= fetches w1 <= S (fetches w))%nat.
Proof.
  cbv zeta. subst endpoint.
  destruct (unconfigured (GOOGLE_SHEETS_GET_ENDPOINT cfg) get_placeholders)
    eqn:Hc.
  - rewrite fetchServerResponse_unconfigured by exact Hc.
    repeat split.
  - rewrite fetchServerResponse_configured by exact Hc.
    destruct (Bridge.outcome _ _) as [|data|e];
      unfold after_fallback, after_bridge;
      cbn [snd injections fetches]; lia.
Qed.

(** What one attempt does to the counters, whatever its result. *)
Lemma attempt_counters w :
  let w1 := snd (poll_attempt cfg object_id onPending onError E w) in
  attempts w1 = S (attempts w) /\ sleeps w1 = sleeps w
  /\ (if unconfigured endpoint get_placeholders
      then injections w1 = injections w /\ fetches w1 = fetches w
           /\ network_events w1 = network_events w
      else injections w1 = S (injections w)
           /\ (fetches w <= fetches w1 <= S (fetches w))%nat).
Proof.
  cbv zeta.
  pose proof (attempt_later cfg object_id onPending onError E w)
    as (_ & Ha & Hs). cbv zeta in Ha, Hs.
  split; [exact Ha|]. split; [exact Hs|].
  destruct (attempt_records cfg object_id onPending onError E w)
    as (l & -> & Hl).
  pose proof (fetch_counters w) as Hf. cbv zeta in Hf.
  unfold network_events, record in *. cbn [injections fetches trace].
  rewrite filter_app, (notices_not_network l Hl), app_nil_r. exact Hf.
Qed.

Variables interval timeout start : Z.

Notation loop fuel :=
  (poll_loop fuel cfg object_id interval timeout onPending onError start E).

Notation round :=
  (poll_round cfg object_id onPending onError interval E).

(** Attempts and sleeps alternate strictly: a finished run is a number of
    rounds, each one attempt that falls through followed by one sleep, begun
    while the time is not up; after the last round either the time is up and
    the run ends with the timeout error, or one more attempt is made, which
    ends the run with what it returned or with what [onError] threw and is
    followed by no sleep. *)
Theorem attempts_alternate_with_sleeps fuel : forall w r w',
  poll_loop fuel cfg object_id interval timeout onPending onError start E w
  = Some (r, w') ->
  exists n,
    (forall k, (k < n)%nat ->
       now (Nat.iter k round w) - start < timeout
       /\ fst (poll_attempt cfg object_id onPending onError E
                 (Nat.iter k round w))
          = Ok None)
    /\ attempts (Nat.iter n round w) = (attempts w + n)%nat
    /\ sleeps (Nat.iter n round w) = (sleeps w + n)%nat
    /\ ((timeout <= now (Nat.iter n round w) - start
         /\ r = Throw poll_timed_out /\ w' = Nat.iter n round w)
        \/ (now (Nat.iter n round w) - start < timeout
            /\ poll_attempt cfg object_id onPending onError E
                 (Nat.iter n round w)
               = (match r with
                  | Ok data => Ok (Some data)
                  | Throw e => Throw e
                  end, w')
            /\ attempts w' = S (attempts w + n)
            /\ sleeps w' = (sleeps w + n)%nat)).
Proof.
  induction fuel as [|fuel IH]; intros w r w' H.
  - cbn [poll_loop] in H. destruct (now w - start <? timeout) eqn:Hc;
      [discriminate|]. injection H as <- <-. apply Z.ltb_ge in Hc.
    exists 0%nat. cbn [Nat.iter nat_rect]. split; [intros k Hk; lia|].
    split; [lia|]. split; [lia|]. left. repeat split. exact Hc.
  - destruct (Z.lt_ge_cases (now w - start) timeout) as [Hc|Hc].
    + rewrite poll_loop_step in H by exact Hc.
      pose proof (attempt_later cfg object_id onPending onError E w)
        as (_ & Ha & Hs). cbv zeta in Ha, Hs.
      destruct (poll_attempt cfg object_id onPending onError E w)
        as [[[data|]|e] w1] eqn:Hp; cbn [snd] in Ha, Hs.
      * injection H as <- <-. exists 0%nat. cbn [Nat.iter nat_rect].
        split; [intros k Hk; lia|]. split; [lia|]. split; [lia|].
        right. rewrite Hp. repeat split; try assumption; lia.
      * apply IH in H. destruct H as (n & Hk & Hna & Hns & Hend).
        assert (Hw2 : snd (sleep interval E w1) = round w)
          by (unfold poll_round; rewrite Hp; reflexivity).
        rewrite Hw2 in Hk, Hna, Hns, Hend.
        pose proof (sleep_later E interval w1) as (_ & _ & Ha2 & Hs2).
        cbv zeta in Ha2, Hs2.
        assert (Hra : attempts (round w) = S (attempts w))
          by (rewrite <- Hw2; lia).
        assert (Hrs : sleeps (round w) = S (sleeps w))
          by (rewrite <- Hw2; lia).
        exists (S n). rewrite !Nat.iter_succ_r.
        split; [|split; [lia|split; [lia|]]].
        -- intros [|k] Hlt.
           ++ cbn [Nat.iter nat_rect]. rewrite Hp. split; [exact Hc | reflexivity].
           ++ rewrite Nat.iter_succ_r. apply Hk. lia.
        -- destruct Hend as [(Ht & -> & ->) | (Ht & Hlast & Hla & Hls)].
           ++ left. repeat split. exact Ht.
           ++ right. split; [exact Ht|]. split; [exact Hlast|]. split; lia.
      * injection H as <- <-. exists 0%nat. cbn [Nat.iter nat_rect].
        split; [intros k Hk; lia|]. split; [lia|]. split; [lia|].
        right. rewrite Hp. repeat split; try assumption; lia.
    + rewrite poll_loop_expired in H by exact Hc. injection H as <- <-.
      exists 0%nat. cbn [Nat.iter nat_rect]. split; [intros k Hk; lia|].
      split; [lia|]. split; [lia|]. left. repeat split. exact Hc.
Qed.

(** Every attempt is a fresh round trip: with a configured endpoint a finished
    run has injected one bridge script per attempt and called [fetch] at most
    once per attempt. *)
Theorem one_round_trip_per_attempt fuel : forall w r w',
  unconfigured endpoint get_placeholders = false ->
  loop fuel w = Some (r, w') ->
  (injections w' + attempts w = injections w + attempts w')%nat
  /\ (fetches w <= fetches w')%nat
  /\ (fetches w' + attempts w <= fetches w + attempts w')%nat.
Proof.
  induction fuel as [|fuel IH]; intros w r w' Hcfg H.
  - cbn [poll_loop] in H. destruct (now w - start <? timeout);
      [discriminate|]. injection H as <- <-. lia.
  - destruct (Z.lt_ge_cases (now w - start) timeout) as [Hc|Hc].
    + rewrite poll_loop_step in H by exact Hc.
      pose proof (attempt_counters w) as (Ha & _ & Hn). cbv zeta in Ha, Hn.
      rewrite Hcfg in Hn.
      destruct (poll_attempt cfg object_id onPending onError E w)
        as [[[data|]|e] w1]; cbn [snd] in Ha, Hn.
      * injection H as <- <-. lia.
      * apply IH in H; [|exact Hcfg].
        unfold sleep in H. cbn [snd injections attempts fetches] in H. lia.
      * injection H as <- <-. lia.
    + rewrite poll_loop_expired in H by exact Hc. injection H as <- <-. lia.
Qed.

(** With an unconfigured endpoint the loop never returns a result and never
    touches the network. Every attempt fails with the configuration error and
    hands exactly that error to [onError]: the run adds to the trace a number
    of rounds, each the call of [onError] with the configuration error, the
    warning and the sleep, and ends with the timeout error, unless a call of
    [onError] throws, which ends it with what was thrown; with an [onError]
    that returns the timeout is the only end. *)
Theorem unconfigured_poll_spins fuel : forall w r w',
  unconfigured endpoint get_placeholders = true ->
  loop fuel w = Some (r, w') ->
  network_events w' = network_events w
  /\ injections w' = injections w /\ fetches w' = fetches w
  /\ (exists n,
        (r = Throw poll_timed_out
         /\ attempts w' = (attempts w + n)%nat
         /\ trace w'
            = (trace w ++ List.concat (repeat (refusal_round onError interval) n))
              %list)
        \/ (exists thrown w0,
              r = Throw thrown /\ raised onError E w0 = Some thrown
              /\ attempts w' = S (attempts w + n)
              /\ trace w'
                 = (trace w
                    ++ List.concat (repeat (refusal_round onError interval) n)
                    ++ [EvOnError onError get_not_configured])%list))
  /\ (returns onError E -> r = Throw poll_timed_out).
Proof.
  induction fuel as [|fuel IH]; intros w r w' Hcfg H.
  - cbn [poll_loop] in H. destruct (now w - start <? timeout);
      [discriminate|]. injection H as <- <-.
    repeat split. exists 0%nat. left. cbn [repeat List.concat].
    rewrite app_nil_r. repeat split. lia.
  - destruct (Z.lt_ge_cases (now w - start) timeout) as [Hc|Hc].
    + rewrite poll_loop_step in H by exact Hc.
      rewrite poll_attempt_spec in H. subst endpoint.
      rewrite fetchServerResponse_unconfigured in H by exact Hcfg.
      rewrite on_failure_cases in H.
      destruct (raised onError E (entered w)) as [thrown|] eqn:Hraised.
      * injection H as <- <-.
        unfold network_events, record, entered.
        cbn [trace injections fetches attempts].
        rewrite filter_app. cbn [filter is_network]. rewrite app_nil_r.
        split; [reflexivity|]. split; [reflexivity|]. split; [reflexivity|].
        split.
        -- exists 0%nat. right. exists thrown, (entered w).
           cbn [repeat List.concat app]. repeat split; try assumption.
           f_equal. lia.
        -- intros Hr. rewrite Hr in Hraised. discriminate.
      * apply IH in H; [|exact Hcfg].
        destruct H as (Hn & Hi & Hf & (n & Hshape) & Hret).
        unfold sleep, record, entered, network_events in *.
        cbn [snd injections attempts fetches trace sleeps now] in *.
        rewrite !filter_app in Hn. cbn [filter is_network] in Hn.
        rewrite !app_nil_r in Hn.
        split; [exact Hn|]. split; [exact Hi|]. split; [exact Hf|].
        split; [|exact Hret].
        exists (S n). cbn [repeat List.concat]. unfold refusal_round at 1 3.
        destruct Hshape as [(-> & Ha & Ht) | (thrown & w0 & -> & Hw0 & Ha & Ht)].
        -- left. split; [reflexivity|]. split; [lia|].
           rewrite Ht, <- !app_assoc. reflexivity.
        -- right. exists thrown, w0. split; [reflexivity|].
           split; [exact Hw0|]. split; [lia|].
           rewrite Ht, <- !app_assoc. reflexivity.
    + rewrite poll_loop_expired in H by exact Hc. injection H as <- <-.
      repeat split. exists 0%nat. left. cbn [repeat List.concat].
      rewrite app_nil_r. repeat split. lia.
Qed.

(** Whatever the loop resolves with, [processData] shows as a result: the
    object carries a numeric [procent], so the branch taken is the one that
    displays it, never the "no response" one. *)
Theorem resolved_poll_is_displayed fuel : forall w data w' E',
  loop fuel w = Some (Ok data, w') ->
  has_numeric_procent data = true
  /\ exists results probability,
      processData_results E' data = Some results
      /\ get results "probability" = VNum probability
      /\ typeof (get results "summary") = "string"
      /\ isArray (get results "data_comments") = true.
Proof.
  intros w data w' E' H.
  apply (poll_loop_exits cfg object_id onPending onError E interval timeout
           start) in H.
  destruct H as [_ Hnum]. split; [exact Hnum|].
  unfold processData_results. unfold has_numeric_procent in Hnum.
  rewrite Hnum. do 2 eexists. repeat split.
Qed.

End PollBookkeeping.

Lemma attempts_alternate_with_sleeps_witness :
  exists w',
    poll_loop 5 shipped_config "TOI-700" 10 50 Noop Noop 0
              second_call_completes (initial_world 0)
    = Some (Ok toi_700_result, w')
    /\ attempts w' = 2%nat /\ sleeps w' = 1%nat.
Proof.
  eexists. split; [vm_compute; reflexivity|].
  destruct (attempts_alternate_with_sleeps shipped_config "TOI-700" Noop Noop
              second_call_completes 10 50 0 5 (initial_world 0)
              (Ok toi_700_result) _ ltac:(vm_compute; reflexivity))
    as (n & _). split; reflexivity.
Defined.

Lemma one_round_trip_per_attempt_witness :
  exists w',
    poll_loop 5 shipped_config "TOI-700" 10 30 Noop Noop 0 unreachable
              (initial_world 0)
    = Some (Throw poll_timed_out, w')
    /\ (injections w' + attempts (initial_world 0)
        = injections (initial_world 0) + attempts w')%nat
    /\ (fetches (initial_world 0) <= fetches w')%nat
    /\ (fetches w' + attempts (initial_world 0)
        <= fetches (initial_world 0) + attempts w')%nat.
Proof.
  eexists. split; [vm_compute; reflexivity|].
  apply (one_round_trip_per_attempt shipped_config "TOI-700" Noop Noop
           unreachable 10 30 0 5 (initial_world 0) (Throw poll_timed_out)).
  - reflexivity.
  - vm_compute. reflexivity.
Defined.

Lemma unconfigured_poll_spins_witness :
  exists w',
    poll_loop 5 placeholder_config "TOI-700" 10 30 on_pending_listener
              on_error_listener 0 offline (initial_world 0)
    = Some (Throw poll_timed_out, w')
    /\ network_events w' = network_events (initial_world 0)
    /\ trace w'
       = List.concat (repeat (refusal_round on_error_listener 10) 3).
Proof.
  eexists. split; [vm_compute; reflexivity|].
  destruct (unconfigured_poll_spins placeholder_config "TOI-700"
              on_pending_listener on_error_listener
              offline 10 30 0 5 (initial_world 0) (Throw poll_timed_out) _
              eq_refl ltac:(vm_compute; reflexivity))
    as (Hn & _).
  split; [exact Hn | reflexivity].
Defined.

Lemma resolved_poll_is_displayed_witness :
  has_numeric_procent toi_700_result = true
  /\ exists results probability,
      processData_results offline toi_700_result = Some results
      /\ get results "probability" = VNum probability
      /\ typeof (get results "summary") = "string"
      /\ isArray (get results "data_comments") = true.
Proof.
  refine (resolved_poll_is_displayed shipped_config "TOI-700" Noop Noop
            second_call_completes 10 50 0 3 (initial_world 0) toi_700_result
            _ offline _).
  vm_compute. reflexivity.
Defined.

(** ** The upload and [sendToModel] *)

Module UploadFacts.
Import Upload.

Lemma run_closed_form progressCallback evs : forall s,
  promise (run progressCallback s evs)
  = match promise s with
    | Bridge.Pending =>
        match first_verdict evs with
        | Some p => p
        | None => Bridge.Pending
        end
    | p => p
    end
  /\ reported (run progressCallback s evs)
     = (reported s
        ++ if String.eqb (typeof progressCallback) "function"
           then computable_percents evs else [])%list.
Proof.
  induction evs as [|ev evs IH]; intros s.
  - cbn. split; [destruct (promise s); reflexivity|].
    destruct (String.eqb _ _); symmetry; apply app_nil_r.
  - unfold run in *. cbn [fold_left].
    destruct (IH (step progressCallback s ev)) as [Hp Hr].
    rewrite Hp, Hr. clear IH Hp Hr. destruct s as [sofar p].
    destruct ev as [[] loaded total|status responseText parsed| |];
      cbn [step verdict first_verdict computable_percents andb];
      unfold settle;
      try destruct (String.eqb (typeof progressCallback) "function");
      cbn [promise reported];
      try destruct ((200 <=? status) && (status <? 300));
      try destruct parsed;
      destruct p; cbn [promise reported app];
      rewrite <- ?app_assoc; split; reflexivity.
Qed.

Lemma first_verdict_timeout evs :
  first_verdict (evs ++ [Timeout])
  = Some match first_verdict evs with
         | Some p => p
         | None => Bridge.Rejected timed_out
         end.
Proof.
  induction evs as [|ev evs IH]; [reflexivity|].
  cbn [app first_verdict]. destruct (verdict ev); [reflexivity | exact IH].
Qed.

Lemma computable_percents_timeout evs :
  computable_percents (evs ++ [Timeout]) = computable_percents evs.
Proof.
  induction evs as [|ev evs IH]; [reflexivity|].
  cbn [app computable_percents].
  destruct ev as [[] ? ?| | |]; rewrite ?IH; reflexivity.
Qed.

Lemma verdict_is_error ev p e :
  verdict ev = Some p -> p = Bridge.Rejected e -> exn_name e = "Error".
Proof.
  destruct ev as [c l t|status responseText parsed| |]; cbn [verdict];
    intros H Hp; try discriminate; injection H as <-.
  - destruct ((200 <=? status) && (status <? 300)); [destruct parsed|];
      try discriminate; injection Hp as <-; reflexivity.
  - injection Hp as <-. reflexivity.
  - injection Hp as <-. reflexivity.
Qed.

Lemma first_verdict_is_error evs p e :
  first_verdict evs = Some p -> p = Bridge.Rejected e -> exn_name e = "Error".
Proof.
  induction evs as [|ev evs IH]; cbn [first_verdict]; [discriminate|].
  destruct (verdict ev) eqn:Hv; [|exact IH].
  intros H. injection H as <-. eapply verdict_is_error. exact Hv.
Qed.

Lemma upload_promise evs progressCallback :
  promise (uploadWithProgress evs progressCallback)
  = match first_verdict evs with
    | Some p => p
    | None => Bridge.Rejected timed_out
    end.
Proof.
  unfold uploadWithProgress.
  destruct (run_closed_form progressCallback (evs ++ [Timeout]) initial)
    as [Hp _].
  rewrite first_verdict_timeout in Hp. exact Hp.
Qed.

Lemma verdict_not_pending ev p : verdict ev = Some p -> p <> Bridge.Pending.
Proof.
  destruct ev as [c l t|status responseText parsed| |]; cbn [verdict];
    intros H; try discriminate; injection H as <-; try discriminate.
  destruct ((200 <=? status) && (status <? 300)); [destruct parsed|];
    discriminate.
Qed.

Lemma upload_not_pending evs progressCallback :
  promise (uploadWithProgress evs progressCallback) <> Bridge.Pending.
Proof.
  rewrite upload_promise.
  destruct (first_verdict evs) as [p|] eqn:Hv; [|discriminate].
  induction evs as [|ev evs IH]; [discriminate|].
  cbn [first_verdict] in Hv. destruct (verdict ev) eqn:Hev.
  - injection Hv as <-. eapply verdict_not_pending. exact Hev.
  - apply IH. exact Hv.
Qed.

Lemma upload_rejects_with_error evs progressCallback e :
  promise (uploadWithProgress evs progressCallback) = Bridge.Rejected e ->
  exn_name e = "Error".
Proof.
  rewrite upload_promise. intros He.
  destruct (first_verdict evs) as [p|] eqn:Hv.
  - eapply first_verdict_is_error; [exact Hv | exact He].
  - injection He as <-. reflexivity.
Qed.

(** The promise of an upload is settled by the first of the [load], [error]
    and [timeout] events alone: a [load] with a 2xx status resolves with the
    parsed body, or rejects when the body does not parse, any other status
    rejects with the status and the body, and later events change nothing;
    it is never left pending. The callback receives one rounded percentage
    for every progress event whose length is computable, in order, and
    nothing at all when it is not a function. *)
Theorem upload_settles_on_first_terminal evs progressCallback :
  let final := uploadWithProgress evs progressCallback in
  promise final
  = match first_verdict evs with
    | Some p => p
    | None => Bridge.Rejected timed_out
    end
  /\ promise final <> Bridge.Pending
  /\ (forall e, promise final = Bridge.Rejected e -> exn_name e = "Error")
  /\ reported final
     = (if String.eqb (typeof progressCallback) "function"
        then computable_percents evs else [])
  /\ (forall more,
         promise (run progressCallback final more) = promise final).
Proof.
  cbv zeta.
  split; [apply upload_promise|]. split; [apply upload_not_pending|].
  split; [apply upload_rejects_with_error|]. split.
  - unfold uploadWithProgress.
    destruct (run_closed_form progressCallback (evs ++ [Timeout]) initial)
      as [_ Hr].
    rewrite computable_percents_timeout in Hr. exact Hr.
  - intros more.
    destruct (run_closed_form progressCallback more
                (uploadWithProgress evs progressCallback)) as [Hm _].
    rewrite Hm.
    pose proof (upload_not_pending evs progressCallback) as Hn.
    destruct (promise (uploadWithProgress evs progressCallback));
      [contradiction | reflexivity | reflexivity].
Qed.

End UploadFacts.

Lemma validate_truthy data :
  truthy (validateResponse data) = true -> validateResponse data = VBool true.
Proof.
  unfold validateResponse. destruct (truthy data) eqn:Ht; cbn [negb].
  - cbn [truthy]. intros ->. reflexivity.
  - rewrite Ht. discriminate.
Qed.

Lemma rethrown_name err :
  exn_name (rethrown err) <> "AbortError"
  /\ exn_name (rethrown err) <> "TypeError".
Proof.
  unfold rethrown.
  destruct (String.eqb_spec (exn_name err) "AbortError");
    [split; discriminate|].
  destruct (String.eqb_spec (exn_name err) "TypeError");
    [split; discriminate|].
  split; assumption.
Qed.

(** One call with a file, case by case: the result, and how often [fetch]
    was called. *)
Lemma sendToModel_cases session file progressCallback E w :
  nullish file = false ->
  let sent := sendToModel session file progressCallback E w in
  fetches (snd sent)
  = (if truthy progressCallback then fetches w else S (fetches w))
  /\ fst sent
     = if truthy progressCallback then
         match Upload.promise
                 (Upload.uploadWithProgress (xhr_events session)
                    progressCallback) with
         | Bridge.Fulfilled data =>
             if truthy (validateResponse data) then Ok data
             else Throw invalid_format
         | Bridge.Rejected e => Throw (rethrown e)
         | Bridge.Pending => Throw Upload.timed_out
         end
       else
         match fetch_reply E (fetches w) with
         | NetworkFailure e => Throw (rethrown e)
         | Responded r =>
             if ok r then
               match body_json r with
               | Some data =>
                   if truthy (validateResponse data) then Ok data
                   else Throw invalid_format
               | None => Throw (Exn "SyntaxError" "Unexpected token in JSON")
               end
             else Throw (Error ("API request failed ("
                                ++ show_Z (status r) ++ "): "
                                ++ text_or_empty r))
         end.
Proof.
  intros Hfile. cbv zeta. unfold sendToModel. rewrite Hfile.
  unfold bind, ask, emit, try_catch, await_upload, fetch, json, ret, throw,
    rethrown.
  destruct (truthy progressCallback);
    cbn [now attempts injections fetches sleeps trace].
  - destruct (Upload.promise _) as [|d|e]; cbn [fst snd fetches].
    + split; reflexivity.
    + destruct (truthy (validateResponse d)); cbn; split; reflexivity.
    + destruct (String.eqb (exn_name e) "AbortError");
        [|destruct (String.eqb (exn_name e) "TypeError")];
        cbn; split; reflexivity.
  - destruct (fetch_reply E (fetches w)) as [e|r]; cbn [fst snd fetches].
    + destruct (String.eqb (exn_name e) "AbortError");
        [|destruct (String.eqb (exn_name e) "TypeError")];
        cbn; split; reflexivity.
    + destruct (ok r); cbn [negb]; [|cbn; split; reflexivity].
      destruct (body_json r) as [d|]; [|cbn; split; reflexivity].
      destruct (truthy (validateResponse d)); cbn; split; reflexivity.
Qed.

(** [sendToModel] resolves only with a response that [validateResponse]
    accepts, on either transport. *)
Theorem sendToModel_returns_valid session file progressCallback E w data w' :
  sendToModel session file progressCallback E w = (Ok data, w') ->
  validateResponse data = VBool true.
Proof.
  intros H. destruct (nullish file) eqn:Hfile.
  - unfold sendToModel in H. rewrite Hfile in H. discriminate.
  - destruct (sendToModel_cases session file progressCallback E w Hfile)
      as [_ Hr]. cbv zeta in Hr. rewrite H in Hr. cbn [fst] in Hr.
    destruct (truthy progressCallback).
    + destruct (Upload.promise _) as [|d|e]; try discriminate.
      destruct (truthy (validateResponse d)) eqn:Hv; [|discriminate].
      injection Hr as ->. apply validate_truthy. exact Hv.
    + destruct (fetch_reply E (fetches w)) as [e|r]; [discriminate|].
      destruct (ok r); [|discriminate].
      destruct (body_json r) as [d|]; [|discriminate].
      destruct (truthy (validateResponse d)) eqn:Hv; [|discriminate].
      injection Hr as ->. apply validate_truthy. exact Hv.
Qed.

(** With a file, [sendToModel] never rejects with an [AbortError] or a
    [TypeError]: an aborted request is reported as "Request timed out" and a
    failed one as "Network error"; other errors pass through unchanged. A
    truthy progress callback selects [XMLHttpRequest] and no [fetch] is made;
    without one there is exactly one [fetch]. Without a file the call rejects
    with the [TypeError] of reading [file.name], before any request and
    outside that translation. *)
Theorem sendToModel_error_classes session file progressCallback E w :
  let sent := sendToModel session file progressCallback E w in
  (nullish file = true -> sent = (Throw no_properties, w))
  /\ (nullish file = false ->
      (forall e, fst sent = Throw e ->
                 exn_name e <> "AbortError" /\ exn_name e <> "TypeError")
      /\ (forall e, truthy progressCallback = false ->
                    fetch_reply E (fetches w) = NetworkFailure e ->
                    fst sent = Throw (rethrown e))
      /\ fetches (snd sent)
         = if truthy progressCallback then fetches w else S (fetches w)).
Proof.
  cbv zeta. split; intros Hfile.
  - unfold sendToModel. rewrite Hfile. reflexivity.
  - destruct (sendToModel_cases session file progressCallback E w Hfile)
      as [Hf Hr]. cbv zeta in Hf, Hr.
    split; [|split; [|exact Hf]].
    + intros e He. rewrite Hr in He. clear Hr Hf.
      destruct (truthy progressCallback).
      * pose proof (UploadFacts.upload_not_pending
                      (xhr_events session) progressCallback) as Hnp.
        pose proof (UploadFacts.upload_rejects_with_error
                      (xhr_events session) progressCallback) as Herr.
        destruct (Upload.promise _) as [|d|e0]; [contradiction| |].
        -- destruct (truthy (validateResponse d)); [discriminate|].
           injection He as <-. split; discriminate.
        -- injection He as <-. apply rethrown_name.
      * destruct (fetch_reply E (fetches w)) as [e0|r].
        -- injection He as <-. apply rethrown_name.
        -- destruct (ok r).
           ++ destruct (body_json r) as [d|].
              ** destruct (truthy (validateResponse d)); [discriminate|].
                 injection He as <-. split; discriminate.
              ** injection He as <-. split; discriminate.
           ++ injection He as <-. split; discriminate.
    + intros e Hcb Hreply. rewrite Hr, Hcb, Hreply. reflexivity.
Qed.

Lemma sendToModel_returns_valid_witness :
  validateResponse model_answer = VBool true.
Proof.
  apply (sendToModel_returns_valid silent_upload light_curve VNull
           model_online (initial_world 0) model_answer
           (snd (sendToModel silent_upload light_curve VNull model_online
                   (initial_world 0)))).
  vm_compute. reflexivity.
Defined.

Lemma sendToModel_error_classes_witness :
  sendToModel silent_upload VNull VNull offline (initial_world 0)
  = (Throw no_properties, initial_world 0)
  /\ fst (sendToModel silent_upload light_curve VNull offline
            (initial_world 0))
     = Throw (Error "Network error")
  /\ fetches (snd (sendToModel silent_upload light_curve (VFun "report")
                     offline (initial_world 0)))
     = 0%nat.
Proof.
  split; [|split].
  - apply (proj1 (sendToModel_error_classes silent_upload VNull VNull offline
                    (initial_world 0))). reflexivity.
  - destruct (proj2 (sendToModel_error_classes silent_upload light_curve
                       VNull offline (initial_world 0)) eq_refl)
      as (_ & Hnet & _).
    rewrite (Hnet failed_to_fetch eq_refl eq_refl). reflexivity.
  - destruct (proj2 (sendToModel_error_classes silent_upload light_curve
                       (VFun "report") offline (initial_world 0)) eq_refl)
      as (_ & _ & Hf).
    rewrite Hf. reflexivity.
Defined.

(** ** File validation *)

Lemma lower_idempotent c : lower (lower c) = lower c.
Proof. destruct c as [[] [] [] [] [] [] [] []]; reflexivity. Qed.

Lemma lower_keeps_dot c : Ascii.eqb (lower c) "." = Ascii.eqb c ".".
Proof. destruct c as [[] [] [] [] [] [] [] []]; reflexivity. Qed.

Lemma lower_ascii_idempotent s : lower_ascii (lower_ascii s) = lower_ascii s.
Proof.
  induction s as [|c s IH]; [reflexivity|].
  cbn [lower_ascii]. rewrite lower_idempotent, IH. reflexivity.
Qed.

Lemma lower_ascii_app a b :
  lower_ascii (a ++ b) = lower_ascii a ++ lower_ascii b.
Proof.
  induction a as [|c a IH]; [reflexivity|].
  cbn [append lower_ascii]. rewrite IH. reflexivity.
Qed.

Lemma last_segment_lower s : forall cur,
  lower_ascii (last_segment s cur)
  = last_segment (lower_ascii s) (lower_ascii cur).
Proof.
  induction s as [|c s IH]; intros cur; [reflexivity|].
  cbn [last_segment lower_ascii]. rewrite lower_keeps_dot.
  destruct (Ascii.eqb c "."); rewrite IH; [reflexivity|].
  rewrite lower_ascii_app. reflexivity.
Qed.

Lemma is_ascii_app a b : is_ascii (a ++ b) = is_ascii a && is_ascii b.
Proof.
  induction a as [|c a IH]; [reflexivity|].
  cbn [append is_ascii]. rewrite IH. apply andb_assoc.
Qed.

Lemma last_segment_ascii s : forall cur,
  is_ascii s = true -> is_ascii cur = true ->
  is_ascii (last_segment s cur) = true.
Proof.
  induction s as [|c s IH]; intros cur Hs Hcur; [exact Hcur|].
  cbn [is_ascii] in Hs. apply andb_true_iff in Hs. destruct Hs as [Hc Hs].
  cbn [last_segment]. destruct (Ascii.eqb c "."); apply IH;
    try assumption; try reflexivity.
  rewrite is_ascii_app, Hcur. cbn [is_ascii andb]. rewrite Hc. reflexivity.
Qed.

Lemma append_assoc_string (a b c : string) : (a ++ b) ++ c = a ++ (b ++ c).
Proof.
  induction a as [|x a IH]; [reflexivity|]. cbn [append]. rewrite IH.
  reflexivity.
Qed.

Lemma last_segment_no_dot s : forall cur,
  includes s "." = false -> last_segment s cur = cur ++ s.
Proof.
  induction s as [|c s IH]; intros cur H.
  - cbn. induction cur as [|x cur IHc]; [reflexivity|].
    cbn [append]. rewrite <- IHc. reflexivity.
  - cbn [includes String.prefix] in H. cbn [last_segment].
    apply orb_false_iff in H. destruct H as [Hp Hrest].
    destruct (Ascii.eqb_spec c ".") as [->|Hc].
    + destruct (ascii_dec "." "."); [|contradiction].
      destruct s; discriminate.
    + rewrite IH by exact Hrest. apply append_assoc_string.
Qed.

Lemma last_segment_skips_stem stem : forall cur rest,
  last_segment (stem ++ String "." rest) cur = last_segment rest EmptyString.
Proof.
  induction stem as [|c stem IH]; intros cur rest.
  - reflexivity.
  - cbn [append last_segment]. destruct (Ascii.eqb c "."); apply IH.
Qed.

(** Files of one extension get one verdict. *)
Lemma verdict_by_extension formatFileSize E size type allowedTypes maxSize
  name name' :
  fileExtension E (FileInfo name size type)
  = fileExtension E (FileInfo name' size type) ->
  validateFile formatFileSize E (FileInfo name size type) allowedTypes maxSize
  = validateFile formatFileSize E (FileInfo name' size type) allowedTypes
                 maxSize.
Proof.
  intros H. unfold validateFile, size_error. cbn [file_size].
  assert (Hm : existsb (type_matches E (FileInfo name size type)) allowedTypes
               = existsb (type_matches E (FileInfo name' size type))
                         allowedTypes).
  { induction allowedTypes as [|t ts IH]; [reflexivity|].
    cbn [existsb]. rewrite IH. unfold type_matches at 1 3.
    rewrite H. reflexivity. }
  rewrite Hm. reflexivity.
Qed.

(** The verdict of [validateFile] depends on the file's name only through
    the lowercased text after its last dot. A stem before the last dot never
    matters, so that a name without any dot counts as being its own
    extension; and for names within ASCII the case of the name never
    matters: the extension compared is the text after the last dot with [A]
    to [Z] lowered. *)
Theorem validateFile_reads_extension
  formatFileSize E size type allowedTypes maxSize :
  let check name :=
    validateFile formatFileSize E (FileInfo name size type) allowedTypes
                 maxSize in
  (forall name name',
      is_ascii name = true -> is_ascii name' = true ->
      lower_ascii name = lower_ascii name' -> check name = check name')
  /\ (forall stem ext,
         includes ext "." = false ->
         check (stem ++ "." ++ ext) = check ext
         /\ (is_ascii ext = true ->
             fileExtension E (FileInfo (stem ++ "." ++ ext) size type)
             = "." ++ lower_ascii ext)).
Proof.
  cbv zeta. split.
  - intros name name' Ha Ha' H. apply verdict_by_extension.
    unfold fileExtension, toLowerCase. cbn [file_name].
    rewrite !last_segment_ascii by (assumption || reflexivity).
    rewrite !last_segment_lower, H. reflexivity.
  - intros stem ext H.
    assert (He : last_segment (stem ++ "." ++ ext) "" = ext).
    { change (stem ++ "." ++ ext) with (stem ++ String "." ext).
      rewrite last_segment_skips_stem, last_segment_no_dot by exact H.
      reflexivity. }
    split.
    + apply verdict_by_extension. unfold fileExtension. cbn [file_name].
      rewrite He, last_segment_no_dot by exact H. reflexivity.
    + intros Ha. unfold fileExtension, toLowerCase. cbn [file_name].
      rewrite He, Ha. reflexivity.
Qed.

Lemma validateFile_reads_extension_witness :
  validateFile show_Z offline (FileInfo "Light.Curve.CSV" 10 "") [".csv"] 100
  = validateFile show_Z offline (FileInfo "csv" 10 "") [".csv"] 100
  /\ valid (validateFile show_Z offline (FileInfo "csv" 10 "") [".csv"] 100)
     = true.
Proof.
  destruct (validateFile_reads_extension show_Z offline 10 "" [".csv"] 100)
    as [Hcase Hstem].
  split; [|reflexivity].
  rewrite (Hcase "Light.Curve.CSV" "light.curve.csv" eq_refl eq_refl eq_refl).
  apply (Hstem "light.curve" "csv"). reflexivity.
Defined.

(** An accepted extension is compared as written: an entry that starts with
    a dot and contains one of the letters [A] to [Z] accepts no file by its
    name. *)
Theorem uppercase_extension_matches_nothing E file type :
  String.prefix "." type = true ->
  lower_ascii type <> type ->
  type_matches E file type = false.
Proof.
  intros Hdot Hcase. unfold type_matches. rewrite Hdot.
  destruct (String.eqb_spec (fileExtension E file) type) as [Heq|];
    [|reflexivity].
  exfalso. apply Hcase. rewrite <- Heq. unfold fileExtension, toLowerCase.
  set (seg := if is_ascii _ then _ else _).
  change ("." ++ lower_ascii seg) with (String "." (lower_ascii seg)).
  cbn [lower_ascii]. rewrite lower_ascii_idempotent. reflexivity.
Qed.

Lemma uppercase_extension_matches_nothing_witness :
  type_matches offline (FileInfo "data.CSV" 10 "text/csv") ".CSV" = false.
Proof.
  apply uppercase_extension_matches_nothing.
  - reflexivity.
  - discriminate.
Defined.

(** [validateFile] reports a file as valid exactly when it records no error,
    that is when the size does not exceed the limit and some accepted type
    matches; the size error, if any, comes first; an empty list of accepted
    types rejects every file. *)
Theorem validateFile_verdict formatFileSize E file allowedTypes maxSize :
  let checked := validateFile formatFileSize E file allowedTypes maxSize in
  (valid checked = true <-> errors checked = [])
  /\ valid checked
     = (file_size file <=? maxSize)
       && existsb (type_matches E file) allowedTypes
  /\ errors checked
     = ((if file_size file <=? maxSize then []
         else [size_error formatFileSize file maxSize])
        ++ (if existsb (type_matches E file) allowedTypes then []
            else [type_error allowedTypes]))%list
  /\ (allowedTypes = [] -> valid checked = false).
Proof.
  cbv zeta. unfold validateFile.
  rewrite Z.ltb_antisym.
  destruct (file_size file <=? maxSize);
    destruct (existsb (type_matches E file) allowedTypes) eqn:Hm;
    cbn [negb valid errors app andb]; repeat split;
    try discriminate; try reflexivity; intros ->; discriminate.
Qed.

(** ** The result shown always validates *)

Section Rounding.

Variables prec emax : Z.

Lemma shr_1_nonneg mrs : 0 <= shr_m mrs -> 0 <= shr_m (shr_1 mrs).
Proof.
  destruct mrs as [m r s]. cbn [shr_m]. intros H.
  destruct m as [|[p|p|]|p]; cbn [shr_1 shr_m]; lia.
Qed.

Lemma iter_shr_1_nonneg p : forall mrs,
  0 <= shr_m mrs -> 0 <= shr_m (iter_pos shr_1 p mrs).
Proof.
  induction p as [p IH|p IH|]; intros mrs H; cbn [iter_pos].
  - apply IH, IH, shr_1_nonneg, H.
  - apply IH, IH, H.
  - apply shr_1_nonneg, H.
Qed.

Lemma shr_fexp_nonneg m e l :
  0 <= m -> 0 <= shr_m (fst (shr_fexp prec emax m e l)).
Proof.
  intros H. unfold shr_fexp, shr.
  assert (H0 : 0 <= shr_m (shr_record_of_loc m l))
    by (destruct l as [|[]]; exact H).
  destruct (fexp prec emax (Zdigits2 m + e) - e); cbn [fst]; try exact H0.
  apply iter_shr_1_nonneg, H0.
Qed.

Lemma round_nearest_even_nonneg m l : 0 <= m -> 0 <= round_nearest_even m l.
Proof.
  intros H. unfold round_nearest_even.
  destruct l as [|[]]; try destruct (Z.even m); lia.
Qed.

Lemma binary_round_aux_not_nan s m e l :
  0 <= m -> binary_round_aux prec emax s m e l <> S754_nan.
Proof.
  intros H. unfold binary_round_aux.
  pose proof (shr_fexp_nonneg m e l H) as H1.
  destruct (shr_fexp prec emax m e l) as [mrs' e']. cbn [fst] in H1.
  pose proof (shr_fexp_nonneg _ e' loc_Exact
                (round_nearest_even_nonneg _ (loc_of_shr_record mrs') H1))
    as H2.
  destruct (shr_fexp prec emax
              (round_nearest_even (shr_m mrs') (loc_of_shr_record mrs')) e'
              loc_Exact) as [mrs'' e'']. cbn [fst] in H2.
  destruct (shr_m mrs'') as [|q|q]; [discriminate| |lia].
  destruct (e'' <=? emax - prec); discriminate.
Qed.

Lemma SFdiv_core_binary_nonneg mx ex my ey :
  0 <= fst (fst (SFdiv_core_binary prec emax (Zpos mx) ex (Zpos my) ey)).
Proof.
  unfold SFdiv_core_binary. cbv zeta.
  set (s := ex - ey - _).
  set (m' := match s with Zpos _ => Z.shiftl (Zpos mx) s | 0 => Zpos mx
                        | Zneg _ => 0 end).
  assert (Hm : 0 <= m').
  { subst m'. destruct s as [|p|p]; try lia.
    apply Z.shiftl_nonneg. lia. }
  pose proof (Z.div_pos m' (Zpos my) Hm eq_refl) as Hq.
  unfold Z.div in Hq.
  destruct (Z.div_eucl m' (Zpos my)) as [q r]. exact Hq.
Qed.

(** Dividing by a finite number other than zero never yields [NaN], unless
    the dividend is [NaN]. *)
Lemma SFdiv_finite_not_nan x sy my ey :
  x <> S754_nan -> SFdiv prec emax x (S754_finite sy my ey) <> S754_nan.
Proof.
  intros Hx. destruct x as [sx|sx| |sx mx ex]; cbn [SFdiv];
    try discriminate; [contradiction|].
  pose proof (SFdiv_core_binary_nonneg mx ex my ey) as H.
  destruct (SFdiv_core_binary prec emax (Zpos mx) ex (Zpos my) ey)
    as [[mz ez] lz].
  apply binary_round_aux_not_nan, H.
Qed.

End Rounding.

Lemma percent_to_fraction_nan p :
  PrimFloat.is_nan (p / 100)%float = PrimFloat.is_nan p.
Proof.
  rewrite (is_nan_SF (p / 100)), (is_nan_SF p), div_spec.
  change (Prim2SF 100%float) with SF_hundred. unfold SF64div, SF_hundred.
  pose proof (fun H => SFdiv_finite_not_nan FloatOps.prec FloatOps.emax
                         (Prim2SF p) false 7036874417766400 (-46) H) as Hd.
  destruct (Prim2SF p) as [s|s| |s m e].
  3: reflexivity.
  all: destruct (SFdiv _ _ _ _); try reflexivity;
    exfalso; apply Hd; [discriminate|reflexivity].
Qed.

Lemma ltb_leb (a b : float) :
  PrimFloat.ltb a b = true -> PrimFloat.leb a b = true.
Proof.
  rewrite ltb_spec, leb_spec. unfold SFltb, SFleb.
  destruct (SFcompare (Prim2SF a) (Prim2SF b)) as [[]|];
    intros H; try reflexivity; discriminate.
Qed.

(** [Math.max(0, Math.min(1, x))] lies in the unit interval, as
    [validateResponse] tests it, for every [x] but [NaN]. *)
Lemma unit_clamp_in_range x :
  let q := Num.Math_max [0%float; Num.Math_min [1%float; x]] in
  PrimFloat.leb 0 q && PrimFloat.leb q 1 = negb (PrimFloat.is_nan x).
Proof.
  cbv zeta. rewrite Math_max_0, Math_min_1.
  destruct (PrimFloat.is_nan x) eqn:Hn.
  - change (PrimFloat.is_nan nan) with true. reflexivity.
  - destruct (PrimFloat.ltb x 1) eqn:H1.
    + rewrite Hn. destruct (PrimFloat.ltb 0 x) eqn:H0.
      * rewrite (ltb_leb _ _ H0), (ltb_leb _ _ H1). reflexivity.
      * reflexivity.
    + reflexivity.
Qed.

(** Whatever number the server sends as [procent], the result that
    [processData] builds from it passes [validateResponse] — its probability
    is a number within [0, 1], its summary a string, its comments an array —
    with one exception: a [procent] of [NaN] gives the probability [NaN],
    which does not validate. *)
Theorem shown_result_validates E serverResp p :
  truthy serverResp = true ->
  get serverResp "procent" = VNum p ->
  exists results,
    processData_results E serverResp = Some results
    /\ validateResponse results = VBool (negb (PrimFloat.is_nan p))
    /\ (PrimFloat.is_nan p = true -> get results "probability" = VNum nan).
Proof.
  intros Ht Hp. unfold processData_results. rewrite Ht, Hp.
  cbn [typeof String.eqb Ascii.eqb Bool.eqb andb number_of].
  eexists. split; [reflexivity|]. split.
  - unfold validateResponse.
    cbn [truthy negb get lookup String.eqb Ascii.eqb Bool.eqb typeof
         number_of isArray andb].
    rewrite !andb_true_r.
    rewrite (unit_clamp_in_range (p / 100)%float), percent_to_fraction_nan.
    reflexivity.
  - intros Hn. cbn [get lookup String.eqb Ascii.eqb Bool.eqb].
    rewrite Math_max_0, Math_min_1, percent_to_fraction_nan, Hn.
    reflexivity.
Qed.

Lemma shown_result_validates_witness :
  exists results,
    processData_results offline (VObj [("procent", VNum 250%float)])
    = Some results
    /\ validateResponse results = VBool true.
Proof.
  destruct (shown_result_validates offline
              (VObj [("procent", VNum 250%float)]) 250%float
              eq_refl eq_refl) as (results & Hr & Hv & _).
  exists results. split; [exact Hr | exact Hv].
Defined.

(** ** The local estimator without usable inputs *)

(** A form whose [snr] and [transit_depth] both parse to a falsy number
    (absent, not numeric, or zero) is scored as [snr = 10] and
    [transit_depth = 5000]: the probability is [0.6], worded as moderate,
    with nine comments, after exactly one sleep and without any request. *)
Theorem mockInfer_defaults formData E w :
  nullish formData = false ->
  Num.truthy (Num.parseFloat (to_string E (get formData "snr"))) = false ->
  Num.truthy (Num.parseFloat (to_string E (get formData "transit_depth")))
  = false ->
  exists comments w',
    mockInfer formData E w
    = (Ok (VObj
         [ ("probability", VNum 0.6%float);
           ("summary",
            VStr ("Moderate likelihood of confirmed exoplanet based on "
                  ++ "moderate transit signature and favorable orbital "
                  ++ "parameters."));
           ("data_comments", VArr comments) ]), w')
    /\ List.length comments = 9%nat
    /\ sleeps w' = S (sleeps w)
    /\ fetches w' = fetches w /\ injections w' = injections w.
Proof.
  intros Hnull Hsnr Hdepth.
  unfold mockInfer. unfold bind at 1. cbv beta iota.
  generalize (Num.to_Z (1000 + Math_random E (sleeps w) * 2000)%float).
  intros delay.
  unfold bind, sleep, ask, Date_now, ret, throw. cbv beta iota zeta.
  rewrite Hnull, Hsnr, Hdepth. cbv beta iota.
  change (PrimFloat.leb 0.75
            (Num.Math_round
               ((0.3 + Num.Math_min [(10 / 20)%float; 1%float] * 0.3
                 + Num.Math_min [(5000 / 10000)%float; 1%float] * 0.3)
                * 1000) / 1000)%float) with false.
  change (PrimFloat.leb 0.5
            (Num.Math_round
               ((0.3 + Num.Math_min [(10 / 20)%float; 1%float] * 0.3
                 + Num.Math_min [(5000 / 10000)%float; 1%float] * 0.3)
                * 1000) / 1000)%float) with true.
  cbv beta iota.
  change ((Num.Math_round
             ((0.3 + Num.Math_min [(10 / 20)%float; 1%float] * 0.3
               + Num.Math_min [(5000 / 10000)%float; 1%float] * 0.3)
              * 1000) / 1000)%float) with 0.6%float.
  do 2 eexists. split; [reflexivity|].
  repeat split.
Qed.

Lemma mockInfer_defaults_witness :
  exists comments w',
    mockInfer (VObj [("snr", VStr "0"); ("transit_depth", VStr "deep")])
              offline (initial_world 0)
    = (Ok (VObj
         [ ("probability", VNum 0.6%float);
           ("summary",
            VStr ("Moderate likelihood of confirmed exoplanet based on "
                  ++ "moderate transit signature and favorable orbital "
                  ++ "parameters."));
           ("data_comments", VArr comments) ]), w')
    /\ sleeps w' = 1%nat.
Proof.
  destruct (mockInfer_defaults
              (VObj [("snr", VStr "0"); ("transit_depth", VStr "deep")])
              offline (initial_world 0) eq_refl eq_refl eq_refl)
    as (comments & w' & H & _ & Hs & _).
  exists comments, w'. split; [exact H | exact Hs].
Defined.

(** ** The submitted form *)

Lemma lookup_assign props k v key :
  lookup key (assign props k v)
  = if String.eqb k "__proto__" then lookup key props
    else if String.eqb k key then Some (VStr v) else lookup key props.
Proof.
  unfold assign. destruct (String.eqb k "__proto__"); [reflexivity|].
  apply lookup_define.
Qed.

Lemma lookup_collect key entries : forall props,
  key <> "__proto__" ->
  lookup key
    (fold_left (fun props kv => assign props (fst kv) (snd kv))
               entries props)
  = match last_entry key entries with
    | Some v => Some (VStr v)
    | None => lookup key props
    end.
Proof.
  induction entries as [|[k v] entries IH]; intros props Hkey;
    cbn [fold_left last_entry fst snd].
  - reflexivity.
  - rewrite IH, lookup_assign by exact Hkey.
    destruct (last_entry key entries); [reflexivity|].
    destruct (String.eqb_spec k "__proto__") as [->|_].
    + destruct (String.eqb_spec "__proto__" key); [congruence|reflexivity].
    + destruct (String.eqb k key); reflexivity.
Qed.

Lemma lookup_collect_proto entries : forall props,
  lookup "__proto__"
    (fold_left (fun props kv => assign props (fst kv) (snd kv))
               entries props)
  = lookup "__proto__" props.
Proof.
  induction entries as [|[k v] entries IH]; intros props;
    cbn [fold_left fst snd]; [reflexivity|].
  rewrite IH, lookup_assign.
  destruct (String.eqb_spec k "__proto__") as [->|Hk]; [reflexivity|].
  destruct (String.eqb_spec k "__proto__"); [contradiction | reflexivity].
Qed.

Lemma get_form_object entries key :
  get (form_object entries) key
  = match (if String.eqb key "__proto__" then None
           else last_entry key entries) with
    | Some v => VStr v
    | None => inherited key
    end.
Proof.
  unfold form_object, collect, get.
  destruct (String.eqb_spec key "__proto__") as [->|Hkey].
  - rewrite lookup_collect_proto. reflexivity.
  - rewrite lookup_collect by exact Hkey.
    destruct (last_entry key entries); reflexivity.
Qed.

(** No required field bears a name that [Object.prototype] knows. *)
Lemma required_plain f :
  In f required -> String.eqb f "__proto__" = false /\ inherited f = VUndefined.
Proof.
  unfold required. cbn [In]. intros H.
  repeat (destruct H as [<-|H]; [split; reflexivity|]). destruct H.
Qed.

Lemma get_required entries f :
  In f required ->
  get (form_object entries) f
  = match last_entry f entries with Some v => VStr v | None => VUndefined end.
Proof.
  intros Hin. destruct (required_plain f Hin) as [Hp Hi].
  rewrite get_form_object, Hp, Hi. reflexivity.
Qed.

Lemma missing_fields_form entries :
  missing_fields (form_object entries) = filter (unfilled entries) required.
Proof.
  unfold missing_fields. apply filter_ext_in. intros f Hin.
  rewrite get_required by exact Hin. unfold unfilled.
  destruct (last_entry f entries) as [v|]; cbn [truthy is_not_zero];
    [|reflexivity].
  rewrite andb_true_r. apply negb_involutive.
Qed.

(** The object that [handleFormSubmit] builds from the form holds, for each
    name but [__proto__], the value of the last entry of that name, always a
    string; under a name without entry, and under [__proto__] whatever the
    form holds, a read finds what [Object.prototype] gives. Hence the test
    [data[f] !== 0] never fails, and a required field counts as missing
    exactly when the form has no entry for it or its last entry is empty: a
    submission is ignored while another is processed, refused with the
    missing fields listed in the order of [required], and accepted
    otherwise. *)
Theorem handleFormSubmit_criterion entries :
  (forall key,
      get (form_object entries) key
      = match (if String.eqb key "__proto__" then None
               else last_entry key entries) with
        | Some v => VStr v
        | None => inherited key
        end)
  /\ (forall key, is_not_zero (get (form_object entries) key) = true)
  /\ missing_fields (form_object entries)
     = filter (unfilled entries) required
  /\ handleFormSubmit true entries = Ignored
  /\ handleFormSubmit false entries
     = match filter (unfilled entries) required with
       | [] => Accepted (form_object entries)
       | missing =>
           Refused ("Please fill required fields: "
                    ++ String.concat ", " missing)
       end.
Proof.
  split; [apply get_form_object|].
  split.
  { intros key. rewrite get_form_object.
    destruct (if String.eqb key "__proto__" then None
              else last_entry key entries); [reflexivity|].
    unfold inherited.
    destruct (String.eqb key "constructor"); [reflexivity|].
    destruct (existsb (String.eqb key) Object_prototype_methods);
      [reflexivity|].
    destruct (String.eqb key "__proto__"); reflexivity. }
  split; [apply missing_fields_form|].
  split; [reflexivity|].
  unfold handleFormSubmit. cbv zeta. rewrite missing_fields_form.
  destruct (filter (unfilled entries) required); reflexivity.
Qed.

(** A form is accepted only with a non-empty last entry for each of the
    thirteen required fields; text that is not a number, a lone blank
    included, is enough. *)
Theorem accepted_form_is_complete entries data field :
  handleFormSubmit false entries = Accepted data ->
  In field required ->
  exists v, last_entry field entries = Some v /\ v <> ""
            /\ get data field = VStr v.
Proof.
  intros H Hin.
  unfold handleFormSubmit in H. cbv zeta in H.
  rewrite missing_fields_form in H.
  destruct (filter (unfilled entries) required) as [|m ms] eqn:Hf;
    [|discriminate].
  injection H as <-.
  assert (Hu : unfilled entries field = false).
  { destruct (unfilled entries field) eqn:Hu; [|reflexivity].
    assert (Hin' : In field (filter (unfilled entries) required))
      by (apply filter_In; split; assumption).
    rewrite Hf in Hin'. destruct Hin'. }
  unfold unfilled in Hu. rewrite get_required by exact Hin.
  destruct (last_entry field entries) as [v|]; [|discriminate].
  exists v. split; [reflexivity|]. split; [|reflexivity].
  intros ->. discriminate.
Qed.

Lemma accepted_form_is_complete_witness :
  exists v, last_entry "snr" complete_entries = Some v /\ v <> ""
            /\ get (form_object complete_entries) "snr" = VStr v.
Proof.
  apply (accepted_form_is_complete complete_entries
           (form_object complete_entries) "snr").
  - reflexivity.
  - cbn. tauto.
Defined.

(** ** The waiting indicator *)

Module WaitingFacts.
Import WaitingUI.

Lemma advance_below_95 id ts :
  all_below_95 ts ->
  all_below_95 (fst (advance id ts))
  /\ (forall pct, snd (advance id ts) = Some pct -> 0 <= pct < 95).
Proof.
  induction ts as [|[i pct] ts IH]; intros H; cbn [advance].
  - split; [exact H | discriminate].
  - destruct (Nat.eqb i id).
    + cbn [fst snd]. split.
      * intros id' pct' [Heq|Hin].
        -- injection Heq as _ <-. apply Z.mod_pos_bound. lia.
        -- apply (H id' pct'). right. exact Hin.
      * intros pct' Heq. injection Heq as <-. apply Z.mod_pos_bound. lia.
    + assert (Hts : all_below_95 ts)
        by (intros id' pct' Hin; apply (H id' pct'); right; exact Hin).
      destruct (IH Hts) as [IH1 IH2].
      destruct (advance id ts) as [rest' shown]. cbn [fst snd] in *.
      split; [|exact IH2].
      intros id' pct' [Heq|Hin].
      * apply (H id' pct'). left. exact Heq.
      * apply (IH1 id' pct'). exact Hin.
Qed.

Lemma shows_zero : shows_below_95 "0%".
Proof. exists 0. split; [lia | reflexivity]. Qed.

Lemma perform_keeps_ok p a : indicator_ok p -> indicator_ok (perform p a).
Proof.
  destruct p as [hs hb hp ht d bw pc tx ts nx an].
  unfold indicator_ok, below_95. cbn [timers bar_width percentage].
  intros (Ht & Hb & Hp). pose proof shows_zero as Hz.
  destruct a as [| |id|s]; cbn [perform].
  - unfold startWaitingUI.
    cbn [with_display with_bar with_percentage with_text with_timers
         has_section has_bar has_percentage has_text timers next_timer].
    destruct hs; cbn [negb snd timers bar_width percentage];
      [|exact (conj Ht (conj Hb Hp))].
    destruct hb; cbn [negb snd timers bar_width percentage];
      [|exact (conj Ht (conj Hb Hp))].
    destruct hp; cbn [negb snd timers bar_width percentage];
      [|exact (conj Ht (conj Hz Hp))].
    destruct ht; cbn [negb snd timers bar_width percentage];
      [|exact (conj Ht (conj Hz Hz))].
    refine (conj _ (conj Hz Hz)).
    intros id pct Hin. apply in_app_or in Hin.
    destruct Hin as [Hin|[Heq|[]]]; [apply (Ht id pct Hin)|].
    injection Heq as _ <-. lia.
  - unfold stopWaitingUI.
    cbn [with_display with_timers has_section animInterval timers
         next_timer].
    destruct hs; cbn [negb timers bar_width percentage];
      [|exact (conj Ht (conj Hb Hp))].
    destruct an as [[|n]|]; cbn [timers bar_width percentage];
      try exact (conj Ht (conj Hb Hp)).
    refine (conj _ (conj Hb Hp)).
    intros id pct Hin. unfold clearInterval in Hin.
    apply filter_In in Hin. apply (Ht id pct), Hin.
  - unfold tick. cbn [timers].
    destruct (advance_below_95 id ts Ht) as [H1 H2].
    destruct (advance id ts) as [ts' [pct|]]; cbn [fst snd] in H1, H2;
      cbn [timers bar_width percentage];
      [|exact (conj Ht (conj Hb Hp))].
    specialize (H2 pct eq_refl).
    assert (Hs : shows_below_95 (show_Z pct ++ "%"))
      by (exists pct; split; [exact H2 | reflexivity]).
    cbn [with_timers with_bar with_percentage has_bar has_percentage
         next_timer animInterval].
    destruct hb; cbn [negb timers bar_width percentage];
      [|exact (conj H1 (conj Hb Hp))].
    destruct hp; cbn [negb timers bar_width percentage];
      [exact (conj H1 (conj Hs Hs)) | exact (conj H1 (conj Hs Hp))].
  - unfold updateWaitingText. cbn [has_text with_text].
    destruct ht; exact (conj Ht (conj Hb Hp)).
Qed.

(** Whatever is done to the waiting indicator, in whatever order — started,
    stopped, advanced by any of its intervals, given a new text —, its bar
    and its percentage never show 95% or more: the animation cannot reach
    completion by itself. *)
Theorem indicator_stays_below_95 actions : forall p,
  indicator_ok p -> indicator_ok (fold_left perform actions p).
Proof.
  induction actions as [|a actions IH]; intros p H; cbn [fold_left].
  - exact H.
  - apply IH, perform_keeps_ok, H.
Qed.

Lemma indicator_stays_below_95_witness :
  indicator_ok
    (fold_left perform [Start; Tick 1; Tick 1; Say "wait"; Stop; Tick 1]
               full_page).
Proof.
  apply indicator_stays_below_95.
  exact (conj (fun id pct (H : In (id, pct) []) => match H with end)
              (conj shows_zero shows_zero)).
Defined.

Ltac page_simpl :=
  cbn [with_display with_bar with_percentage with_text with_timers
       has_section has_bar has_percentage has_text display bar_width
       percentage text timers next_timer animInterval negb fst snd].

Lemma tick_running id pct p anim next :
  has_bar p = true -> has_percentage p = true ->
  timers p = [(id, pct)] -> animInterval p = anim -> next_timer p = next ->
  let p' := tick id p in
  timers p' = [(id, (pct + 7) mod 95)]
  /\ bar_width p' = show_Z ((pct + 7) mod 95) ++ "%"
  /\ percentage p' = show_Z ((pct + 7) mod 95) ++ "%"
  /\ has_bar p' = true /\ has_percentage p' = true
  /\ has_section p' = has_section p /\ has_text p' = has_text p
  /\ text p' = text p /\ display p' = display p
  /\ animInterval p' = anim /\ next_timer p' = next.
Proof.
  destruct p as [hs hb hp ht d bw pc tx ts nx an]. page_simpl.
  intros -> -> -> <- <-. unfold tick. page_simpl.
  cbn [advance]. rewrite Nat.eqb_refl. page_simpl.
  repeat split.
Qed.

Lemma start_idle p :
  idle p ->
  startWaitingUI p
  = (None,
     Page true true true true "block" "0%" "0%"
          "Waiting for server response..." [(next_timer p, 5)]
          (S (next_timer p)) (Some (next_timer p))).
Proof.
  destruct p as [hs hb hp ht d bw pc tx ts nx an]. unfold idle. page_simpl.
  intros (-> & -> & -> & -> & -> & -> & Hn). reflexivity.
Qed.

(** One cycle of the indicator on a page that holds all its elements: it is
    shown with 0%, the [n]-th firing of its interval shows
    [(5 + 7 n) mod 95] percent — 12 first, back to 1 after 89 —, and
    stopping hides it, clears the interval and leaves the page idle again,
    so that a firing that was still queued changes nothing. *)
Theorem waiting_cycle p n :
  idle p ->
  let id := next_timer p in
  let started := snd (startWaitingUI p) in
  let running := Nat.iter n (tick id) started in
  let stopped := stopWaitingUI running in
  fst (startWaitingUI p) = None
  /\ display started = "block" /\ bar_width started = "0%"
  /\ percentage started = "0%"
  /\ timers running = [(id, (5 + 7 * Z.of_nat n) mod 95)]
  /\ ((0 < n)%nat ->
      bar_width running = show_Z ((5 + 7 * Z.of_nat n) mod 95) ++ "%"
      /\ percentage running = show_Z ((5 + 7 * Z.of_nat n) mod 95) ++ "%")
  /\ text running = "Waiting for server response..."
  /\ display stopped = "none"
  /\ idle stopped
  /\ (forall id', tick id' stopped = stopped).
Proof.
  intros Hidle. cbv zeta. rewrite (start_idle p Hidle). cbn [fst snd].
  destruct Hidle as (_ & _ & _ & _ & _ & _ & Hn).
  generalize dependent (next_timer p). intros nx Hn.
  set (started := Page true true true true "block" "0%" "0%"
                       "Waiting for server response..." [(nx, 5)] (S nx)
                       (Some nx)).
  assert (Hrun :
            let running := Nat.iter n (tick nx) started in
            timers running = [(nx, (5 + 7 * Z.of_nat n) mod 95)]
            /\ ((0 < n)%nat ->
                bar_width running
                = show_Z ((5 + 7 * Z.of_nat n) mod 95) ++ "%"
                /\ percentage running
                   = show_Z ((5 + 7 * Z.of_nat n) mod 95) ++ "%")
            /\ has_bar running = true /\ has_percentage running = true
            /\ has_section running = true /\ has_text running = true
            /\ text running = "Waiting for server response..."
            /\ animInterval running = Some nx
            /\ next_timer running = S nx).
  { cbv zeta. induction n as [|n IH].
    - cbn [Nat.iter]. subst started. page_simpl.
      repeat split; try reflexivity; lia.
    - cbn [Nat.iter].
      destruct IH as (I1 & _ & I3 & I4 & I5 & I6 & I7 & I8 & I9).
      destruct (tick_running nx _ _ _ _ I3 I4 I1 I8 I9)
        as (T1 & T2 & T3 & T4 & T5 & T6 & T7 & T8 & _ & T10 & T11).
      cbv zeta in T1, T2, T3, T4, T5, T6, T7, T8, T10, T11.
      assert (Hmod : ((5 + 7 * Z.of_nat n) mod 95 + 7) mod 95
                     = (5 + 7 * Z.of_nat (S n)) mod 95).
      { rewrite Z.add_mod_idemp_l by lia. f_equal. lia. }
      rewrite Hmod in T1, T2, T3.
      split; [exact T1|]. split; [intros _; split; assumption|].
      split; [exact T4|]. split; [exact T5|].
      split; [exact (eq_trans T6 I5)|]. split; [exact (eq_trans T7 I6)|].
      split; [exact (eq_trans T8 I7)|]. split; assumption. }
  cbv zeta in Hrun.
  destruct Hrun as (R1 & R2 & R3 & R4 & R5 & R6 & R7 & R8 & R9).
  split; [reflexivity|]. split; [reflexivity|]. split; [reflexivity|].
  split; [reflexivity|]. split; [exact R1|]. split; [exact R2|].
  split; [exact R7|].
  destruct (Nat.iter n (tick nx) started)
    as [hs' hb' hp' ht' d' bw' pc' tx' ts' nx' an'].
  revert R1 R3 R4 R5 R6 R8 R9. page_simpl. intros -> -> -> -> -> -> ->.
  unfold stopWaitingUI. page_simpl.
  destruct nx as [|k]; [lia|].
  unfold clearInterval. cbn [filter fst]. rewrite Nat.eqb_refl. page_simpl.
  split; [reflexivity|]. split.
  - unfold idle. page_simpl. repeat split; lia.
  - intros id'. reflexivity.
Qed.

Lemma waiting_cycle_witness :
  timers (Nat.iter 13 (tick 1) (snd (startWaitingUI full_page))) = [(1%nat, 1)]
  /\ idle (stopWaitingUI
             (Nat.iter 13 (tick 1) (snd (startWaitingUI full_page)))).
Proof.
  assert (Hidle : idle full_page)
    by (unfold idle; cbn; repeat split; lia).
  destruct (waiting_cycle full_page 13 Hidle)
    as (_ & _ & _ & _ & Ht & _ & _ & _ & Hi & _).
  split; [exact Ht | exact Hi].
Defined.

(** Starting the indicator a second time without stopping it in between
    loses the handle of the first interval: [stopWaitingUI] clears only the
    one started last, the first one stays running for good and goes on
    moving the hidden bar. *)
Theorem second_start_leaks_interval p :
  idle p ->
  let twice := snd (startWaitingUI (snd (startWaitingUI p))) in
  let stopped := stopWaitingUI twice in
  timers twice = [(next_timer p, 5); (S (next_timer p), 5)]
  /\ timers stopped = [(next_timer p, 5)]
  /\ animInterval stopped = None
  /\ stopWaitingUI stopped = stopped
  /\ bar_width (tick (next_timer p) stopped) = "12%".
Proof.
  intros Hidle. cbv zeta. rewrite (start_idle p Hidle). cbn [snd].
  destruct Hidle as (_ & _ & _ & _ & _ & _ & Hn).
  generalize dependent (next_timer p). intros nx Hn.
  unfold startWaitingUI. page_simpl. cbn [app].
  split; [reflexivity|].
  unfold stopWaitingUI. page_simpl.
  unfold clearInterval. cbn [filter fst]. rewrite Nat.eqb_refl.
  assert (Hneq : Nat.eqb nx (S nx) = false) by (apply Nat.eqb_neq; lia).
  rewrite Hneq. page_simpl.
  split; [reflexivity|]. split; [reflexivity|]. split; [reflexivity|].
  unfold tick. page_simpl. cbn [advance]. rewrite Nat.eqb_refl. page_simpl.
  reflexivity.
Qed.

Lemma second_start_leaks_interval_witness :
  timers (stopWaitingUI
            (snd (startWaitingUI (snd (startWaitingUI full_page)))))
  = [(1%nat, 5)].
Proof.
  assert (Hidle : idle full_page)
    by (unfold idle; cbn; repeat split; lia).
  destruct (second_start_leaks_interval full_page Hidle) as (_ & H & _).
  exact H.
Defined.

End WaitingFacts.
